(** * Granite render graph: a shallow embedding of [renderer/render_graph.hpp]

    The header declares the data model of the render graph (buffer
    descriptors, resolved resource dimensions, logical resources, logical
    passes, the pass implementation interface and the graph itself) and
    defines its small inline operations.  Each C++ class becomes a module
    holding a record and the inline member functions; [unsigned] and the
    Vulkan flag types are integers in [Z]; [std::unordered_set<unsigned>] is a
    [gset Z]; [std::vector] is a [list] accessed with stdpp's lookup and
    insert; nullable pointers are [option]s of handles. *)

From stdpp Require Import gmap list strings.

(** ** Machine integers and handles *)

(** [unsigned] is 32 bits wide. *)
Definition unsigned_bits : Z := 32.

Definition wrap_unsigned (z : Z) : Z := z `mod` 2 ^ unsigned_bits.

(** Objects that live behind a pointer are named by a handle. *)
Definition handle : Type := positive.

(** ** [struct BufferInfo] *)

Module BufferInfo.

Record t : Type := mk {
  size : Z;          (* VkDeviceSize *)
  usage : Z;         (* VkBufferUsageFlags *)
  persistent : bool
}.

(** The default member initialisers. *)
Definition default : t := {| size := 0; usage := 0; persistent := true |}.

Definition operator_eq (self other : t) : bool :=
  (size self =? size other)%Z &&
  (usage self =? usage other)%Z &&
  Bool.eqb (persistent self) (persistent other).

Definition operator_ne (self other : t) : bool :=
  negb (operator_eq self other).

End BufferInfo.

(** ** [struct ResourceDimensions] *)

Module ResourceDimensions.

Record t : Type := mk {
  format : Z;        (* VkFormat *)
  buffer_info : BufferInfo.t;
  width : Z;
  height : Z;
  depth : Z;
  layers : Z;
  levels : Z;
  transient : bool;
  persistent : bool;
  storage : bool
}.

Definition VK_FORMAT_UNDEFINED : Z := 0.

Definition default : t :=
  {| format := VK_FORMAT_UNDEFINED;
     buffer_info := BufferInfo.default;
     width := 0; height := 0; depth := 1; layers := 1; levels := 1;
     transient := false; persistent := false; storage := false |}.

(** The seventh conjunct is written [buffer_info == buffer_info] in the
    header: both operands are the member of [*this]. *)
Definition operator_eq (self other : t) : bool :=
  (format self =? format other)%Z &&
  (width self =? width other)%Z &&
  (height self =? height other)%Z &&
  (depth self =? depth other)%Z &&
  (layers self =? layers other)%Z &&
  (levels self =? levels other)%Z &&
  BufferInfo.operator_eq (buffer_info self) (buffer_info self) &&
  Bool.eqb (transient self) (transient other) &&
  Bool.eqb (persistent self) (persistent other) &&
  Bool.eqb (storage self) (storage other).

Definition operator_ne (self other : t) : bool :=
  negb (operator_eq self other).

End ResourceDimensions.

(** ** [class RenderResource] *)

Module RenderResource.

Inductive Type_ : Type := Buffer | Texture.

(** [enum { Unused = ~0u }]: the complement of zero at 32 bits. *)
Definition Unused : Z := wrap_unsigned (Z.lnot 0).

Record t : Type := mk {
  resource_type : Type_;
  index : Z;
  physical_index : Z;
  written_in_passes : gset Z;
  read_in_passes : gset Z
}.

(** The constructor [RenderResource(Type type, unsigned index)]. *)
Definition make (type : Type_) (idx : Z) : t :=
  {| resource_type := type;
     index := idx;
     physical_index := Unused;
     written_in_passes := ∅;
     read_in_passes := ∅ |}.

Definition get_type (r : t) : Type_ := resource_type r.

Definition written_in_pass (n : Z) (r : t) : t :=
  {| resource_type := resource_type r;
     index := index r;
     physical_index := physical_index r;
     written_in_passes := {[n]} ∪ written_in_passes r;
     read_in_passes := read_in_passes r |}.

Definition read_in_pass (n : Z) (r : t) : t :=
  {| resource_type := resource_type r;
     index := index r;
     physical_index := physical_index r;
     written_in_passes := written_in_passes r;
     read_in_passes := {[n]} ∪ read_in_passes r |}.

Definition get_read_passes (r : t) : gset Z := read_in_passes r.

Definition get_write_passes (r : t) : gset Z := written_in_passes r.

Definition get_index (r : t) : Z := index r.

Definition set_physical_index (n : Z) (r : t) : t :=
  {| resource_type := resource_type r;
     index := index r;
     physical_index := n;
     written_in_passes := written_in_passes r;
     read_in_passes := read_in_passes r |}.

Definition get_physical_index (r : t) : Z := physical_index r.

(** The mutating members other than [set_physical_index], as commands, so
    that a history of calls on one resource can be replayed. *)
Inductive edge_call : Type :=
| Written (n : Z)
| Read (n : Z).

Definition call (c : edge_call) (r : t) : t :=
  match c with
  | Written n => written_in_pass n r
  | Read n => read_in_pass n r
  end.

(** Calls are applied left to right. *)
Definition calls (cs : list edge_call) (r : t) : t :=
  foldl (fun acc c => call c acc) r cs.

End RenderResource.

(** ** [class RenderPassImplementation] *)

Module RenderPassImplementation.

Section Interface.

(** The Vulkan value types and the command buffer come from headers that
    are not part of this file. *)
Context {VkClearColorValue VkClearDepthStencilValue : Type}.
Context {Pass CommandBuffer : Type}.

(** The objects an out-pointer of a query can address. *)
Record memory : Type := mk_memory {
  color_values : gmap handle VkClearColorValue;
  depth_stencil_values : gmap handle VkClearDepthStencilValue
}.

(** The bodies the base class gives its two virtual queries.  A query takes
    the memory in which its (possibly null) target lives and returns the
    memory it leaves behind with its answer. *)
Definition get_clear_color
    (attachment : Z) (target : option handle) (m : memory) : bool * memory :=
  (false, m).

Definition get_clear_depth_stencil
    (target : option handle) (m : memory) : bool * memory :=
  (false, m).

(** The virtual table of an implementation. *)
Record vtable : Type := mk_vtable {
  vt_get_clear_color : Z -> option handle -> memory -> bool * memory;
  vt_get_clear_depth_stencil : option handle -> memory -> bool * memory;
  vt_build_render_pass : Pass -> CommandBuffer -> CommandBuffer
}.

(** A subclass that overrides nothing but the pure virtual
    [build_render_pass], as [RenderPassShaderBlitImplementation] does. *)
Definition derive (build : Pass -> CommandBuffer -> CommandBuffer) : vtable :=
  {| vt_get_clear_color := get_clear_color;
     vt_get_clear_depth_stencil := get_clear_depth_stencil;
     vt_build_render_pass := build |}.

End Interface.

Arguments memory : clear implicits.
Arguments vtable : clear implicits.

End RenderPassImplementation.

(** ** [class RenderPass] *)

Module RenderPass.

Definition Unused : Z := wrap_unsigned (Z.lnot 0).

(** A [RenderTextureResource *] or [RenderBufferResource *] held by a pass
    points into the graph's resource table; it is modelled by the logical
    index of the resource it points to, [None] being the null pointer. *)
Definition resource_ptr : Type := option Z.

Record t : Type := mk {
  graph : handle;                      (* RenderGraph & *)
  index : Z;
  physical_pass : Z;
  stages : Z;                          (* VkPipelineStageFlags *)
  color_outputs : list resource_ptr;
  color_inputs : list resource_ptr;
  color_scale_inputs : list resource_ptr;
  texture_inputs : list resource_ptr;
  storage_texture_inputs : list resource_ptr;
  storage_texture_outputs : list resource_ptr;
  attachments_inputs : list resource_ptr;
  history_inputs : list resource_ptr;
  uniform_inputs : list resource_ptr;
  storage_outputs : list resource_ptr;
  storage_read_inputs : list resource_ptr;
  storage_inputs : list resource_ptr;
  depth_stencil_input : resource_ptr;
  depth_stencil_output : resource_ptr;
  implementation : option handle       (* RenderPassImplementation * *)
}.

(** The constructor [RenderPass(RenderGraph &, unsigned, VkPipelineStageFlags)]
    with the default member initialisers. *)
Definition make (g : handle) (idx : Z) (stg : Z) : t :=
  {| graph := g; index := idx; physical_pass := Unused; stages := stg;
     color_outputs := []; color_inputs := []; color_scale_inputs := [];
     texture_inputs := []; storage_texture_inputs := [];
     storage_texture_outputs := []; attachments_inputs := [];
     history_inputs := []; uniform_inputs := []; storage_outputs := [];
     storage_read_inputs := []; storage_inputs := [];
     depth_stencil_input := None; depth_stencil_output := None;
     implementation := None |}.

Definition get_stages (p : t) : Z := stages p.
Definition get_graph (p : t) : handle := graph p.
Definition get_index (p : t) : Z := index p.

Definition set_implementation (impl : option handle) (p : t) : t :=
  {| graph := graph p; index := index p; physical_pass := physical_pass p;
     stages := stages p;
     color_outputs := color_outputs p; color_inputs := color_inputs p;
     color_scale_inputs := color_scale_inputs p;
     texture_inputs := texture_inputs p;
     storage_texture_inputs := storage_texture_inputs p;
     storage_texture_outputs := storage_texture_outputs p;
     attachments_inputs := attachments_inputs p;
     history_inputs := history_inputs p;
     uniform_inputs := uniform_inputs p;
     storage_outputs := storage_outputs p;
     storage_read_inputs := storage_read_inputs p;
     storage_inputs := storage_inputs p;
     depth_stencil_input := depth_stencil_input p;
     depth_stencil_output := depth_stencil_output p;
     implementation := impl |}.

(** [get_implementation] asserts that the pointer is set. *)
Definition get_implementation (p : t) : option handle := implementation p.

(** [std::swap(color_scale_inputs[index], color_inputs[index])].  Indexing a
    vector past its end is undefined; the model has no result there. *)
Definition make_color_input_scaled (idx : Z) (p : t) : option t :=
  scaled ← color_scale_inputs p !! Z.to_nat idx;
  plain ← color_inputs p !! Z.to_nat idx;
  Some
    {| graph := graph p; index := index p; physical_pass := physical_pass p;
       stages := stages p;
       color_outputs := color_outputs p;
       color_inputs := <[Z.to_nat idx := scaled]> (color_inputs p);
       color_scale_inputs := <[Z.to_nat idx := plain]> (color_scale_inputs p);
       texture_inputs := texture_inputs p;
       storage_texture_inputs := storage_texture_inputs p;
       storage_texture_outputs := storage_texture_outputs p;
       attachments_inputs := attachments_inputs p;
       history_inputs := history_inputs p;
       uniform_inputs := uniform_inputs p;
       storage_outputs := storage_outputs p;
       storage_read_inputs := storage_read_inputs p;
       storage_inputs := storage_inputs p;
       depth_stencil_input := depth_stencil_input p;
       depth_stencil_output := depth_stencil_output p;
       implementation := implementation p |}.

Definition get_color_outputs (p : t) := color_outputs p.
Definition get_color_inputs (p : t) := color_inputs p.
Definition get_color_scale_inputs (p : t) := color_scale_inputs p.
Definition get_texture_inputs (p : t) := texture_inputs p.
Definition get_storage_texture_outputs (p : t) := storage_texture_outputs p.
Definition get_storage_texture_inputs (p : t) := storage_texture_inputs p.
Definition get_attachment_inputs (p : t) := attachments_inputs p.
Definition get_history_inputs (p : t) := history_inputs p.
Definition get_uniform_inputs (p : t) := uniform_inputs p.
Definition get_storage_inputs (p : t) := storage_inputs p.
Definition get_storage_read_inputs (p : t) := storage_read_inputs p.
Definition get_storage_outputs (p : t) := storage_outputs p.
Definition get_depth_stencil_input (p : t) := depth_stencil_input p.
Definition get_depth_stencil_output (p : t) := depth_stencil_output p.
Definition get_physical_pass_index (p : t) : Z := physical_pass p.

Definition set_physical_pass_index (n : Z) (p : t) : t :=
  {| graph := graph p; index := index p; physical_pass := n;
     stages := stages p;
     color_outputs := color_outputs p; color_inputs := color_inputs p;
     color_scale_inputs := color_scale_inputs p;
     texture_inputs := texture_inputs p;
     storage_texture_inputs := storage_texture_inputs p;
     storage_texture_outputs := storage_texture_outputs p;
     attachments_inputs := attachments_inputs p;
     history_inputs := history_inputs p;
     uniform_inputs := uniform_inputs p;
     storage_outputs := storage_outputs p;
     storage_read_inputs := storage_read_inputs p;
     storage_inputs := storage_inputs p;
     depth_stencil_input := depth_stencil_input p;
     depth_stencil_output := depth_stencil_output p;
     implementation := implementation p |}.

End RenderPass.

(** ** Results of an operation that can fail *)

(** The ways [bake] fails.  [OutOfRange] stands for an index that names no
    slot of the table it is used on, where the C++ is undefined. *)
Inductive bake_error : Type :=
| Cycle
| UnproducedResource
| MissingImplementation
| OutOfRange.

Inductive result (A : Type) : Type :=
| Ok (a : A)
| Err (e : bake_error).

Arguments Ok {A} a.
Arguments Err {A} e.

#[export] Instance result_ret : MRet result := fun A a => Ok a.

#[export] Instance result_bind : MBind result := fun A B f m =>
  match m with
  | Ok a => f a
  | Err e => Err e
  end.

(** A left fold that stops at the first failure. *)
Fixpoint foldM {A B : Type} (f : B -> A -> result B) (b : B) (l : list A)
    : result B :=
  match l with
  | [] => Ok b
  | x :: l' => b' ← f b x; foldM f b' l'
  end.

(** [check b e] fails with [e] unless [b] holds. *)
Definition check (b : bool) (e : bake_error) : result unit :=
  if b then Ok tt else Err e.

(** ** [class RenderGraph] *)

Module RenderGraph.

Section Graph.

(** [Vulkan::Image], [Vulkan::ImageView] and [Image::get_view] come from
    the device header. *)
Context {Image ImageView : Type}.
Context (get_view : Image -> ImageView).

(** The members the modelled operations touch.  An [ImageHandle] is a
    nullable owning pointer, hence an [option]. *)
Record t : Type := mk {
  passes : list RenderPass.t;
  resources : list RenderResource.t;
  pass_to_index : gmap string Z;
  resource_to_index : gmap string Z;
  backbuffer_source : string;
  pass_stack : list Z;
  physical_history_image_attachments : list (option Image)
}.

(** [get_physical_history_texture_resource]: the outer [option] is [None]
    where the index is past the end of the vector (undefined in C++); the
    inner one is the returned pointer, [None] for [nullptr]. *)
Definition get_physical_history_texture_resource (g : t) (idx : Z)
    : option (option ImageView) :=
  slot ← physical_history_image_attachments g !! Z.to_nat idx;
  Some
    match slot with
    | None => None
    | Some image => Some (get_view image)
    end.

(** *** The dependency analysis of [bake] *)

(** [bake], [filter_passes] and [validate_passes] are declared in the header
    and defined elsewhere.  The definitions below follow the description of
    the dependency analyzer in the spec (section 4.2) and of the failures of
    [bake] (section 7). *)

(** Modelled from the spec: the inputs of a pass whose producers the
    traversal pushes, which [bake] reads from the edge lists of the pass:
    color inputs (plain or made scaled), texture, attachment, storage,
    uniform, read-only storage and depth/stencil inputs.  History inputs
    contribute nothing, they refer to the previous frame.  A null entry of a
    list names no resource. *)
Definition dependency_inputs (p : RenderPass.t) : list Z :=
  omap id
    (RenderPass.get_color_inputs p ++
     RenderPass.get_color_scale_inputs p ++
     RenderPass.get_texture_inputs p ++
     RenderPass.get_attachment_inputs p ++
     RenderPass.get_storage_texture_inputs p ++
     RenderPass.get_storage_inputs p ++
     RenderPass.get_uniform_inputs p ++
     RenderPass.get_storage_read_inputs p ++
     [RenderPass.get_depth_stencil_input p]).

(** Modelled from the spec: the producers of resource [r] in [bake], the
    passes of its write set. *)
Definition producers (g : t) (r : Z) : result (list Z) :=
  match resources g !! Z.to_nat r with
  | Some res => Ok (elements (RenderResource.get_write_passes res))
  | None => Err OutOfRange
  end.

(** Modelled from the spec: the expansion step of [bake].  The pass is
    appended to the list of visited passes, then the producers of each of its
    inputs are expanded in turn.  [path] holds the passes whose expansion is
    in progress: a producer that is the pass itself (a self-dependency) or
    that lies on the path (a back edge) is a cycle.  The path never repeats a
    pass, so a depth beyond the number of passes is a cycle too. *)
Fixpoint expand (g : t) (fuel : nat) (path : list Z) (visited : list Z)
    (pass : Z) : result (list Z) :=
  match fuel with
  | O => Err Cycle
  | S fuel' =>
    match passes g !! Z.to_nat pass with
    | None => Err OutOfRange
    | Some p =>
      foldM
        (fun vis r =>
           ws ← producers g r;
           foldM
             (fun vis' w =>
                if decide (w = pass) then Err Cycle
                else if decide (w ∈ path) then Err Cycle
                else expand g fuel' (pass :: path) vis' w)
             vis ws)
        (visited ++ [pass])
        (dependency_inputs p)
    end
  end.

(** Modelled from the spec: the traversal of [bake] from its seeds, the
    producers of the backbuffer source.  The result lists the passes in the
    order they were visited, a pass once for every time it was pushed. *)
Definition traverse (g : t) (seeds : list Z) : result (list Z) :=
  foldM (fun vis w => expand g (S (length (passes g))) [] vis w) [] seeds.

(** Modelled from the spec: [RenderGraph::filter_passes], which collapses
    duplicates and keeps the last occurrence of each pass. *)
Fixpoint filter_passes (l : list Z) : list Z :=
  match l with
  | [] => []
  | x :: l' =>
    if decide (x ∈ l') then filter_passes l' else x :: filter_passes l'
  end.

(** The position of the first occurrence of a pass in an order. *)
Fixpoint position (x : Z) (order : list Z) : option nat :=
  match order with
  | [] => None
  | y :: order' =>
    if decide (x = y) then Some O else S <$> position x order'
  end.

(** [a] comes before [b], for passes that are both in the order. *)
Definition precedes (order : list Z) (a b : Z) : bool :=
  match position a order, position b order with
  | Some i, Some j => bool_decide (i < j)
  | _, _ => true
  end.

(** Modelled from the spec: the validation that [bake] runs on one resource.
    A resource read by a pass of the order has at least one writer, unless it
    is the backbuffer source; and all its writers in the order precede all its
    readers in the order. *)
Definition validate_resource (backbuffer : Z) (order : list Z)
    (res : RenderResource.t) : result unit :=
  let writers := elements (RenderResource.get_write_passes res) in
  let readers :=
    filter (fun x => x ∈ order)
           (elements (RenderResource.get_read_passes res)) in
  _ ← check (bool_decide (readers = []) ||
             negb (bool_decide (writers = [])) ||
             bool_decide (RenderResource.get_index res = backbuffer))
            UnproducedResource;
  check (forallb (fun w => forallb (fun rd => precedes order w rd) readers)
                 (filter (fun x => x ∈ order) writers))
        Cycle.

(** Modelled from the spec: [RenderGraph::validate_passes].  Every resource is
    validated against the order, and every pass of the order has an
    implementation. *)
Definition validate_passes (g : t) (backbuffer : Z) (order : list Z)
    : result unit :=
  _ ← foldM (fun _ res => validate_resource backbuffer order res)
            tt (resources g);
  foldM
    (fun _ i =>
       match passes g !! Z.to_nat i with
       | None => Err OutOfRange
       | Some p =>
         check (bool_decide (is_Some (RenderPass.implementation p)))
               MissingImplementation
       end)
    tt order.

(** Modelled from the spec: the body of [RenderGraph::bake], which the
    header only declares.  This is the part of [bake] that produces the
    ordered pass list: the producers of the backbuffer source seed the
    traversal; visited passes are accumulated; duplicates are collapsed
    keeping the last occurrence; the list is put producers first; the order
    is validated.  On success the order is stored in [pass_stack]; on failure
    no plan is left. *)
Definition bake (g : t) : result t :=
  match resource_to_index g !! backbuffer_source g with
  | None => Err UnproducedResource
  | Some backbuffer =>
    seeds ← producers g backbuffer;
    visited ← traverse g seeds;
    let order := reverse (filter_passes visited) in
    _ ← validate_passes g backbuffer order;
    Ok {| passes := passes g;
          resources := resources g;
          pass_to_index := pass_to_index g;
          resource_to_index := resource_to_index g;
          backbuffer_source := backbuffer_source g;
          pass_stack := order;
          physical_history_image_attachments :=
            physical_history_image_attachments g |}
  end.

(** *** Predicates on the traversal *)

(** Pass [p] is a producer of one of the inputs of pass [q] that contribute
    dependencies. *)
Definition depends_on (g : t) (q p : Z) : Prop :=
  exists (pass : RenderPass.t) (r : Z) (res : RenderResource.t),
    passes g !! Z.to_nat q = Some pass /\
    r ∈ dependency_inputs pass /\
    resources g !! Z.to_nat r = Some res /\
    p ∈ RenderResource.get_write_passes res.

(** Pass [a] writes resource [r]: it is in the write set of the resource. *)
Definition writes (g : t) (a r : Z) : Prop :=
  exists res : RenderResource.t,
    resources g !! Z.to_nat r = Some res /\
    a ∈ RenderResource.get_write_passes res.

(** Pass [b] reads resource [r] in the current frame: it is in the read set
    of the resource, or the resource is on one of the input edges of the pass
    that contribute dependencies. *)
Definition reads (g : t) (b r : Z) : Prop :=
  (exists res : RenderResource.t,
     resources g !! Z.to_nat r = Some res /\
     b ∈ RenderResource.get_read_passes res) \/
  (exists pass : RenderPass.t,
     passes g !! Z.to_nat b = Some pass /\
     r ∈ dependency_inputs pass).

(** In a list of visited passes, every occurrence of a pass is followed by
    an occurrence of each pass it depends on. *)
Definition followed (g : t) (vis : list Z) : Prop :=
  forall (k : nat) (q p : Z),
    vis !! k = Some q -> depends_on g q p ->
    exists k' : nat, k < k' /\ vis !! k' = Some p.

End Graph.

Arguments t : clear implicits.

End RenderGraph.

(** ** Concrete inputs *)

Module Fixtures.

(** Two resolved dimension records that differ in nothing but the byte size
    of their buffer descriptor. *)
Definition dims_with_size (n : Z) : ResourceDimensions.t :=
  {| ResourceDimensions.format := ResourceDimensions.VK_FORMAT_UNDEFINED;
     ResourceDimensions.buffer_info :=
       {| BufferInfo.size := n;
          BufferInfo.usage := 0;
          BufferInfo.persistent := true |};
     ResourceDimensions.width := 0;
     ResourceDimensions.height := 0;
     ResourceDimensions.depth := 1;
     ResourceDimensions.layers := 1;
     ResourceDimensions.levels := 1;
     ResourceDimensions.transient := false;
     ResourceDimensions.persistent := false;
     ResourceDimensions.storage := false |}.

Definition dims_16 : ResourceDimensions.t := dims_with_size 16.
Definition dims_64 : ResourceDimensions.t := dims_with_size 64.

(** A pass with two color attachments: slot 0 has a plain color input
    (resource 4), slot 1 has none and a scaled input (resource 9). *)
Definition two_slot_pass : RenderPass.t :=
  {| RenderPass.graph := 1%positive;
     RenderPass.index := 0;
     RenderPass.physical_pass := RenderPass.Unused;
     RenderPass.stages := 1024;
     RenderPass.color_outputs := [Some 5; Some 6]%Z;
     RenderPass.color_inputs := [Some 4; None]%Z;
     RenderPass.color_scale_inputs := [None; Some 9]%Z;
     RenderPass.texture_inputs := [];
     RenderPass.storage_texture_inputs := [];
     RenderPass.storage_texture_outputs := [];
     RenderPass.attachments_inputs := [];
     RenderPass.history_inputs := [];
     RenderPass.uniform_inputs := [];
     RenderPass.storage_outputs := [];
     RenderPass.storage_read_inputs := [];
     RenderPass.storage_inputs := [];
     RenderPass.depth_stencil_input := None;
     RenderPass.depth_stencil_output := None;
     RenderPass.implementation := None |}.

(** A logical resource with given writers and readers. *)
Definition resource (type : RenderResource.Type_) (idx : Z)
    (writers readers : list Z) : RenderResource.t :=
  {| RenderResource.resource_type := type;
     RenderResource.index := idx;
     RenderResource.physical_index := RenderResource.Unused;
     RenderResource.written_in_passes := list_to_set writers;
     RenderResource.read_in_passes := list_to_set readers |}.

(** The merge scenario: pass 0 (G) writes color [c0] (resource 0) and depth
    [d] (resource 1); pass 1 (L) reads [c0] as attachment input and [d] as
    depth input and writes [back] (resource 2), the backbuffer source. *)
Definition pass_G : RenderPass.t :=
  {| RenderPass.graph := 1%positive;
     RenderPass.index := 0;
     RenderPass.physical_pass := RenderPass.Unused;
     RenderPass.stages := 1024;
     RenderPass.color_outputs := [Some 0]%Z;
     RenderPass.color_inputs := [None];
     RenderPass.color_scale_inputs := [None];
     RenderPass.texture_inputs := [];
     RenderPass.storage_texture_inputs := [];
     RenderPass.storage_texture_outputs := [];
     RenderPass.attachments_inputs := [];
     RenderPass.history_inputs := [];
     RenderPass.uniform_inputs := [];
     RenderPass.storage_outputs := [];
     RenderPass.storage_read_inputs := [];
     RenderPass.storage_inputs := [];
     RenderPass.depth_stencil_input := None;
     RenderPass.depth_stencil_output := Some 1%Z;
     RenderPass.implementation := Some 7%positive |}.

Definition pass_L : RenderPass.t :=
  {| RenderPass.graph := 1%positive;
     RenderPass.index := 1;
     RenderPass.physical_pass := RenderPass.Unused;
     RenderPass.stages := 1024;
     RenderPass.color_outputs := [Some 2]%Z;
     RenderPass.color_inputs := [None];
     RenderPass.color_scale_inputs := [None];
     RenderPass.texture_inputs := [];
     RenderPass.storage_texture_inputs := [];
     RenderPass.storage_texture_outputs := [];
     RenderPass.attachments_inputs := [Some 0]%Z;
     RenderPass.history_inputs := [];
     RenderPass.uniform_inputs := [];
     RenderPass.storage_outputs := [];
     RenderPass.storage_read_inputs := [];
     RenderPass.storage_inputs := [];
     RenderPass.depth_stencil_input := Some 1%Z;
     RenderPass.depth_stencil_output := None;
     RenderPass.implementation := Some 8%positive |}.

Definition resource_c0 : RenderResource.t :=
  resource RenderResource.Texture 0 [0%Z] [1%Z].
Definition resource_d : RenderResource.t :=
  resource RenderResource.Texture 1 [0%Z] [1%Z].
Definition resource_back : RenderResource.t :=
  resource RenderResource.Texture 2 [1%Z] [].

Definition merge_graph : RenderGraph.t unit :=
  {| RenderGraph.passes := [pass_G; pass_L];
     RenderGraph.resources := [resource_c0; resource_d; resource_back];
     RenderGraph.pass_to_index := list_to_map [("G", 0%Z); ("L", 1%Z)];
     RenderGraph.resource_to_index :=
       list_to_map [("c0", 0%Z); ("d", 1%Z); ("back", 2%Z)];
     RenderGraph.backbuffer_source := "back";
     RenderGraph.pass_stack := [];
     RenderGraph.physical_history_image_attachments := [] |}.

(** A pass that writes color outputs, samples texture inputs and reads
    history inputs, with an implementation set. *)
Definition simple_pass (idx : Z) (outputs textures history : list Z)
    : RenderPass.t :=
  {| RenderPass.graph := 1%positive;
     RenderPass.index := idx;
     RenderPass.physical_pass := RenderPass.Unused;
     RenderPass.stages := 1024;
     RenderPass.color_outputs := Some <$> outputs;
     RenderPass.color_inputs := const None <$> outputs;
     RenderPass.color_scale_inputs := const None <$> outputs;
     RenderPass.texture_inputs := Some <$> textures;
     RenderPass.storage_texture_inputs := [];
     RenderPass.storage_texture_outputs := [];
     RenderPass.attachments_inputs := [];
     RenderPass.history_inputs := Some <$> history;
     RenderPass.uniform_inputs := [];
     RenderPass.storage_outputs := [];
     RenderPass.storage_read_inputs := [];
     RenderPass.storage_inputs := [];
     RenderPass.depth_stencil_input := None;
     RenderPass.depth_stencil_output := None;
     RenderPass.implementation := Some 7%positive |}.

Definition simple_graph (ps : list RenderPass.t) (rs : list RenderResource.t)
    (backbuffer : Z) : RenderGraph.t unit :=
  {| RenderGraph.passes := ps;
     RenderGraph.resources := rs;
     RenderGraph.pass_to_index := ∅;
     RenderGraph.resource_to_index := {["back" := backbuffer]};
     RenderGraph.backbuffer_source := "back";
     RenderGraph.pass_stack := [];
     RenderGraph.physical_history_image_attachments := [] |}.

(** The cycle scenario: pass 0 reads [x] (resource 0) and writes [y]
    (resource 1); pass 1 reads [y] and writes [x], the backbuffer source. *)
Definition cycle_graph : RenderGraph.t unit :=
  simple_graph
    [simple_pass 0 [1%Z] [0%Z] []; simple_pass 1 [0%Z] [1%Z] []]
    [resource RenderResource.Texture 0 [1%Z] [0%Z];
     resource RenderResource.Texture 1 [0%Z] [1%Z]]
    0.

(** A diamond: pass 0 writes resource 0; passes 1 and 2 sample it and write
    resources 1 and 2; pass 3 samples both and writes resource 3, the
    backbuffer source. *)
Definition diamond_graph : RenderGraph.t unit :=
  simple_graph
    [simple_pass 0 [0%Z] [] []; simple_pass 1 [1%Z] [0%Z] [];
     simple_pass 2 [2%Z] [0%Z] []; simple_pass 3 [3%Z] [1%Z; 2%Z] []]
    [resource RenderResource.Texture 0 [0%Z] [1%Z; 2%Z];
     resource RenderResource.Texture 1 [1%Z] [3%Z];
     resource RenderResource.Texture 2 [2%Z] [3%Z];
     resource RenderResource.Texture 3 [3%Z] []]
    3.

(** The history scenario: one pass writes resource 0, the backbuffer source,
    and reads it as a history input. *)
Definition history_pass_graph : RenderGraph.t unit :=
  simple_graph
    [simple_pass 0 [0%Z] [] [0%Z]]
    [resource RenderResource.Texture 0 [0%Z] []]
    0.

(** A graph on its first frame after allocation: the history slot of
    physical index 0 is empty, that of physical index 1 holds an image. *)
Definition history_graph : RenderGraph.t nat :=
  {| RenderGraph.passes := [];
     RenderGraph.resources := [];
     RenderGraph.pass_to_index := ∅;
     RenderGraph.resource_to_index := ∅;
     RenderGraph.backbuffer_source := "";
     RenderGraph.pass_stack := [];
     RenderGraph.physical_history_image_attachments := [None; Some 42] |}.

End Fixtures.

(** ** Histories of member calls *)

(** The three mutating members of [RenderResource], as commands. *)
Module ResourceCalls.

Inductive t : Type :=
| WrittenInPass (n : Z)
| ReadInPass (n : Z)
| SetPhysicalIndex (n : Z).

Definition run_one (c : t) (r : RenderResource.t) : RenderResource.t :=
  match c with
  | WrittenInPass n => RenderResource.written_in_pass n r
  | ReadInPass n => RenderResource.read_in_pass n r
  | SetPhysicalIndex n => RenderResource.set_physical_index n r
  end.

(** Calls are applied left to right. *)
Definition run (cs : list t) (r : RenderResource.t) : RenderResource.t :=
  foldl (fun acc c => run_one c acc) r cs.

(** The argument of a call, by kind of call. *)
Definition written_arg (c : t) : option Z :=
  match c with WrittenInPass n => Some n | _ => None end.

Definition read_arg (c : t) : option Z :=
  match c with ReadInPass n => Some n | _ => None end.

Definition physical_arg (c : t) : option Z :=
  match c with SetPhysicalIndex n => Some n | _ => None end.

End ResourceCalls.

(** ** [class RenderBufferResource] *)

Module RenderBufferResource.

(** The base class subobject and the member the subclass adds. *)
Record t : Type := mk {
  base : RenderResource.t;
  info : BufferInfo.t
}.

(** [RenderBufferResource(unsigned index)]. *)
Definition make (idx : Z) : t :=
  {| base := RenderResource.make RenderResource.Buffer idx;
     info := BufferInfo.default |}.

Definition set_buffer_info (i : BufferInfo.t) (r : t) : t :=
  {| base := base r; info := i |}.

Definition get_buffer_info (r : t) : BufferInfo.t := info r.

(** A member inherited from [RenderResource] acts on the base subobject. *)
Definition inherited (f : RenderResource.t -> RenderResource.t) (r : t) : t :=
  {| base := f (base r); info := info r |}.

Inductive call : Type :=
| Inherited (c : ResourceCalls.t)
| SetBufferInfo (i : BufferInfo.t).

Definition run_one (c : call) (r : t) : t :=
  match c with
  | Inherited c' => inherited (ResourceCalls.run_one c') r
  | SetBufferInfo i => set_buffer_info i r
  end.

Definition run (cs : list call) (r : t) : t :=
  foldl (fun acc c => run_one c acc) r cs.

Definition inherited_arg (c : call) : option ResourceCalls.t :=
  match c with Inherited c' => Some c' | _ => None end.

Definition info_arg (c : call) : option BufferInfo.t :=
  match c with SetBufferInfo i => Some i | _ => None end.

End RenderBufferResource.

(** ** [enum SizeClass] and [struct AttachmentInfo] *)

Module SizeClass.

Inductive t : Type := Absolute | SwapchainRelative | InputRelative.

End SizeClass.

Module AttachmentInfo.

Section Float.

(** [float] is the C++ single precision type.  The header stores and copies
    its values and computes nothing with them; the only constant it writes is
    [1.0f]. *)
Context {float : Type}.

Record t : Type := mk {
  size_class : SizeClass.t;
  size_x : float;
  size_y : float;
  format : Z;                  (* VkFormat *)
  size_relative_name : string;
  persistent : bool
}.

Definition default (one : float) : t :=
  {| size_class := SizeClass.SwapchainRelative;
     size_x := one;
     size_y := one;
     format := ResourceDimensions.VK_FORMAT_UNDEFINED;
     size_relative_name := "";
     persistent := true |}.

End Float.

Arguments t : clear implicits.

End AttachmentInfo.

(** ** [class RenderTextureResource] *)

Module RenderTextureResource.

Section Float.

Context {float : Type}.

Record t : Type := mk {
  base : RenderResource.t;
  info : AttachmentInfo.t float;
  transient : bool;
  storage : bool
}.

(** [RenderTextureResource(unsigned index)]; [one] is [1.0f]. *)
Definition make (one : float) (idx : Z) : t :=
  {| base := RenderResource.make RenderResource.Texture idx;
     info := AttachmentInfo.default one;
     transient := false;
     storage := false |}.

Definition set_attachment_info (i : AttachmentInfo.t float) (r : t) : t :=
  {| base := base r; info := i;
     transient := transient r; storage := storage r |}.

Definition get_attachment_info (r : t) : AttachmentInfo.t float := info r.

Definition set_transient_state (enable : bool) (r : t) : t :=
  {| base := base r; info := info r;
     transient := enable; storage := storage r |}.

Definition get_transient_state (r : t) : bool := transient r.

Definition set_storage_state (enable : bool) (r : t) : t :=
  {| base := base r; info := info r;
     transient := transient r; storage := enable |}.

Definition get_storage_state (r : t) : bool := storage r.

(** A member inherited from [RenderResource] acts on the base subobject. *)
Definition inherited (f : RenderResource.t -> RenderResource.t) (r : t) : t :=
  {| base := f (base r); info := info r;
     transient := transient r; storage := storage r |}.

Inductive call : Type :=
| Inherited (c : ResourceCalls.t)
| SetAttachmentInfo (i : AttachmentInfo.t float)
| SetTransientState (enable : bool)
| SetStorageState (enable : bool).

Definition run_one (c : call) (r : t) : t :=
  match c with
  | Inherited c' => inherited (ResourceCalls.run_one c') r
  | SetAttachmentInfo i => set_attachment_info i r
  | SetTransientState b => set_transient_state b r
  | SetStorageState b => set_storage_state b r
  end.

Definition run (cs : list call) (r : t) : t :=
  foldl (fun acc c => run_one c acc) r cs.

Definition inherited_arg (c : call) : option ResourceCalls.t :=
  match c with Inherited c' => Some c' | _ => None end.

Definition info_arg (c : call) : option (AttachmentInfo.t float) :=
  match c with SetAttachmentInfo i => Some i | _ => None end.

Definition transient_arg (c : call) : option bool :=
  match c with SetTransientState b => Some b | _ => None end.

Definition storage_arg (c : call) : option bool :=
  match c with SetStorageState b => Some b | _ => None end.

End Float.

Arguments t : clear implicits.
Arguments call : clear implicits.

End RenderTextureResource.

(** ** Histories of calls on a [RenderPass] *)

Module PassCalls.

(** The three mutating members the header defines inline. *)
Inductive t : Type :=
| SetImplementation (impl : option handle)
| MakeColorInputScaled (idx : Z)
| SetPhysicalPassIndex (n : Z).

Definition run_one (c : t) (p : RenderPass.t) : option RenderPass.t :=
  match c with
  | SetImplementation impl => Some (RenderPass.set_implementation impl p)
  | MakeColorInputScaled idx => RenderPass.make_color_input_scaled idx p
  | SetPhysicalPassIndex n => Some (RenderPass.set_physical_pass_index n p)
  end.

(** Calls are applied left to right; the history has no result once a call
    has none. *)
Fixpoint run (cs : list t) (p : RenderPass.t) : option RenderPass.t :=
  match cs with
  | [] => Some p
  | c :: cs' => p' ← run_one c p; run cs' p'
  end.

Definition implementation_arg (c : t) : option (option handle) :=
  match c with SetImplementation impl => Some impl | _ => None end.

Definition physical_pass_arg (c : t) : option Z :=
  match c with SetPhysicalPassIndex n => Some n | _ => None end.

(** The slot a call exchanges, if it exchanges one. *)
Definition exchanged_slot (c : t) : option nat :=
  match c with MakeColorInputScaled idx => Some (Z.to_nat idx) | _ => None end.

(** How many calls of the history exchange slot [j]. *)
Definition exchanges (j : nat) (cs : list t) : nat :=
  length (filter (fun k => k = j) (omap exchanged_slot cs)).

End PassCalls.

(** ** Theorems *)

(** C6. [BufferInfo::operator==] is true exactly when byte size, usage mask
    and persistence flag all agree, and [operator!=] is its negation. *)
Theorem BufferInfo_eq_fieldwise (a b : BufferInfo.t) :
  (BufferInfo.operator_eq a b = true <->
     BufferInfo.size a = BufferInfo.size b /\
     BufferInfo.usage a = BufferInfo.usage b /\
     BufferInfo.persistent a = BufferInfo.persistent b) /\
  BufferInfo.operator_ne a b = negb (BufferInfo.operator_eq a b).
Proof.
  split; [|reflexivity].
  unfold BufferInfo.operator_eq.
  rewrite !andb_true_iff, !Z.eqb_eq, Bool.eqb_true_iff. tauto.
Qed.

(** C1. The claim is that [a == b] on resolved dimensions holds only if the
    two buffer descriptors are equal.  The operator compares the buffer
    descriptor of the left operand with itself, so two records that differ
    only in the byte size of their buffer descriptor compare equal although
    their descriptors do not. *)
Theorem ResourceDimensions_eq_ignores_buffer_info :
  ResourceDimensions.operator_eq Fixtures.dims_16 Fixtures.dims_64 = true /\
  BufferInfo.operator_eq
    (ResourceDimensions.buffer_info Fixtures.dims_16)
    (ResourceDimensions.buffer_info Fixtures.dims_64) = false /\
  ResourceDimensions.buffer_info Fixtures.dims_16 <>
  ResourceDimensions.buffer_info Fixtures.dims_64.
Proof.
  split; [reflexivity|]. split; [reflexivity|]. discriminate.
Qed.

(** C5. Recording a pass index a second time on the same edge set changes
    nothing: the write set (resp. read set) after two calls of
    [written_in_pass n] (resp. [read_in_pass n]) is the set after one. *)
Theorem edge_recording_idempotent (r : RenderResource.t) (n : Z) :
  RenderResource.get_write_passes
    (RenderResource.written_in_pass n (RenderResource.written_in_pass n r)) =
  RenderResource.get_write_passes (RenderResource.written_in_pass n r) /\
  RenderResource.get_read_passes
    (RenderResource.read_in_pass n (RenderResource.read_in_pass n r)) =
  RenderResource.get_read_passes (RenderResource.read_in_pass n r).
Proof.
  unfold RenderResource.get_write_passes, RenderResource.get_read_passes.
  simpl. split; apply set_eq; intros x;
    rewrite !elem_of_union, !elem_of_singleton; tauto.
Qed.

(** C9. [written_in_pass n] adds [n] to the write set and leaves the read
    set, logical index, type and physical index alone; [read_in_pass n] does
    the same with the roles of the two sets exchanged. *)
Theorem edge_recording_frame (r : RenderResource.t) (n : Z) :
  (let r' := RenderResource.written_in_pass n r in
   n ∈ RenderResource.get_write_passes r' /\
   RenderResource.get_write_passes r' =
     {[n]} ∪ RenderResource.get_write_passes r /\
   RenderResource.get_read_passes r' = RenderResource.get_read_passes r /\
   RenderResource.get_index r' = RenderResource.get_index r /\
   RenderResource.get_type r' = RenderResource.get_type r /\
   RenderResource.get_physical_index r' = RenderResource.get_physical_index r)
  /\
  (let r' := RenderResource.read_in_pass n r in
   n ∈ RenderResource.get_read_passes r' /\
   RenderResource.get_read_passes r' =
     {[n]} ∪ RenderResource.get_read_passes r /\
   RenderResource.get_write_passes r' = RenderResource.get_write_passes r /\
   RenderResource.get_index r' = RenderResource.get_index r /\
   RenderResource.get_type r' = RenderResource.get_type r /\
   RenderResource.get_physical_index r' = RenderResource.get_physical_index r).
Proof.
  split; simpl;
    (split; [apply elem_of_union_l, elem_of_singleton; reflexivity
            | repeat split; reflexivity]).
Qed.

(** The edge-recording calls never touch the index, type or physical index. *)
Lemma calls_preserve (cs : list RenderResource.edge_call) (r : RenderResource.t) :
  RenderResource.get_physical_index (RenderResource.calls cs r) =
    RenderResource.get_physical_index r /\
  RenderResource.get_index (RenderResource.calls cs r) =
    RenderResource.get_index r /\
  RenderResource.get_type (RenderResource.calls cs r) =
    RenderResource.get_type r.
Proof.
  revert r. induction cs as [|c cs IH]; intros r; [done|].
  unfold RenderResource.calls in *. simpl.
  destruct (IH (RenderResource.call c r)) as (Hp & Hi & Ht).
  rewrite Hp, Hi, Ht. by destruct c.
Qed.

(** C7. A freshly constructed resource reports the sentinel [Unused], which
    is [~0u] = 4294967295, as its physical index, and keeps reporting it
    through any sequence of edge-recording calls, that is until
    [set_physical_index] is called, after which it reports the index set;
    [get_index] and [get_type] return the constructor arguments. *)
Theorem fresh_resource_state
    (type : RenderResource.Type_) (idx : Z)
    (cs : list RenderResource.edge_call) (n : Z) :
  RenderResource.Unused = 4294967295%Z /\
  RenderResource.get_physical_index (RenderResource.make type idx) =
    RenderResource.Unused /\
  RenderResource.get_physical_index
    (RenderResource.calls cs (RenderResource.make type idx)) =
    RenderResource.Unused /\
  RenderResource.get_physical_index
    (RenderResource.set_physical_index n
       (RenderResource.calls cs (RenderResource.make type idx))) = n /\
  RenderResource.get_index (RenderResource.make type idx) = idx /\
  RenderResource.get_type (RenderResource.make type idx) = type.
Proof.
  destruct (calls_preserve cs (RenderResource.make type idx)) as (Hp & _ & _).
  repeat split; try reflexivity. exact Hp.
Qed.

(** C8. The query operations of the base [RenderPassImplementation] are
    optional with an empty default: for every attachment index and every
    target pointer, null or not, [get_clear_color] and
    [get_clear_depth_stencil] return false and leave the memory behind the
    pointer as it was; an implementation that overrides only
    [build_render_pass] answers the same. *)
Theorem default_clear_queries
    {Color DepthStencil Pass CommandBuffer : Type}
    (attachment : Z) (target : option handle)
    (m : RenderPassImplementation.memory Color DepthStencil)
    (build : Pass -> CommandBuffer -> CommandBuffer) :
  RenderPassImplementation.get_clear_color attachment target m = (false, m) /\
  RenderPassImplementation.get_clear_depth_stencil target m = (false, m) /\
  RenderPassImplementation.vt_get_clear_color
    (RenderPassImplementation.derive build) attachment target m = (false, m) /\
  RenderPassImplementation.vt_get_clear_depth_stencil
    (RenderPassImplementation.derive build) target m = (false, m).
Proof. repeat split. Qed.

(** C10. A freshly constructed pass has the sentinel [Unused] = [~0u] as its
    physical pass index, empty typed edge lists, null depth/stencil input and
    output, no implementation, and the stages and index it was constructed
    with. *)
Theorem fresh_pass_state (g : handle) (idx stg : Z) :
  let p := RenderPass.make g idx stg in
  RenderPass.Unused = 4294967295%Z /\
  RenderPass.get_physical_pass_index p = RenderPass.Unused /\
  RenderPass.get_color_outputs p = [] /\
  RenderPass.get_color_inputs p = [] /\
  RenderPass.get_color_scale_inputs p = [] /\
  RenderPass.get_texture_inputs p = [] /\
  RenderPass.get_storage_texture_inputs p = [] /\
  RenderPass.get_storage_texture_outputs p = [] /\
  RenderPass.get_attachment_inputs p = [] /\
  RenderPass.get_history_inputs p = [] /\
  RenderPass.get_uniform_inputs p = [] /\
  RenderPass.get_storage_outputs p = [] /\
  RenderPass.get_storage_read_inputs p = [] /\
  RenderPass.get_storage_inputs p = [] /\
  RenderPass.get_depth_stencil_input p = None /\
  RenderPass.get_depth_stencil_output p = None /\
  RenderPass.get_implementation p = None /\
  RenderPass.get_stages p = stg /\
  RenderPass.get_index p = idx.
Proof. repeat split. Qed.

(** C3. For an index valid in both the color-input and the color-scale-input
    list, [make_color_input_scaled] exchanges the two entries at that slot and
    leaves every other slot of either list unchanged. *)
Theorem make_color_input_scaled_swaps
    (p : RenderPass.t) (idx : Z) (plain scaled : RenderPass.resource_ptr)
    (Hplain : RenderPass.get_color_inputs p !! Z.to_nat idx = Some plain)
    (Hscaled : RenderPass.get_color_scale_inputs p !! Z.to_nat idx = Some scaled) :
  exists p',
    RenderPass.make_color_input_scaled idx p = Some p' /\
    RenderPass.get_color_scale_inputs p' !! Z.to_nat idx = Some plain /\
    RenderPass.get_color_inputs p' !! Z.to_nat idx = Some scaled /\
    forall j : nat, j <> Z.to_nat idx ->
      RenderPass.get_color_inputs p' !! j = RenderPass.get_color_inputs p !! j /\
      RenderPass.get_color_scale_inputs p' !! j =
        RenderPass.get_color_scale_inputs p !! j.
Proof.
  unfold RenderPass.get_color_inputs, RenderPass.get_color_scale_inputs in *.
  unfold RenderPass.make_color_input_scaled.
  rewrite Hscaled, Hplain. simpl.
  eexists. split; [reflexivity|]. simpl.
  apply lookup_lt_Some in Hplain as Hlen1.
  apply lookup_lt_Some in Hscaled as Hlen2.
  split; [by apply list_lookup_insert_eq|].
  split; [by apply list_lookup_insert_eq|].
  intros j Hj. split; by apply list_lookup_insert_ne.
Qed.

Lemma make_color_input_scaled_swaps_witness :
  RenderPass.get_color_inputs Fixtures.two_slot_pass !! Z.to_nat 0 =
    Some (Some 4%Z) /\
  RenderPass.get_color_scale_inputs Fixtures.two_slot_pass !! Z.to_nat 0 =
    Some None /\
  exists p',
    RenderPass.make_color_input_scaled 0 Fixtures.two_slot_pass = Some p' /\
    RenderPass.get_color_scale_inputs p' !! Z.to_nat 0 = Some (Some 4%Z) /\
    RenderPass.get_color_inputs p' !! Z.to_nat 0 = Some None /\
    forall j : nat, j <> Z.to_nat 0 ->
      RenderPass.get_color_inputs p' !! j =
        RenderPass.get_color_inputs Fixtures.two_slot_pass !! j /\
      RenderPass.get_color_scale_inputs p' !! j =
        RenderPass.get_color_scale_inputs Fixtures.two_slot_pass !! j.
Proof.
  split; [reflexivity|]. split; [reflexivity|].
  apply (make_color_input_scaled_swaps Fixtures.two_slot_pass 0 (Some 4%Z) None);
    reflexivity.
Defined.

(** C4. [get_physical_history_texture_resource] returns null for a physical
    index whose history image slot is empty, as every slot is before the first
    history swap, and the view of the stored image when the slot is
    populated. *)
Theorem history_texture_resource
    {Image ImageView : Type} (get_view : Image -> ImageView)
    (g : RenderGraph.t Image) (idx : Z) (slot : option Image)
    (Hslot : RenderGraph.physical_history_image_attachments g !! Z.to_nat idx
             = Some slot) :
  (slot = None ->
   RenderGraph.get_physical_history_texture_resource get_view g idx
   = Some None) /\
  (forall image, slot = Some image ->
   RenderGraph.get_physical_history_texture_resource get_view g idx
   = Some (Some (get_view image))).
Proof.
  unfold RenderGraph.get_physical_history_texture_resource.
  rewrite Hslot. simpl. split.
  - intros ->. reflexivity.
  - intros image ->. reflexivity.
Qed.

Lemma history_texture_resource_witness :
  (RenderGraph.physical_history_image_attachments Fixtures.history_graph
     !! Z.to_nat 0 = Some None /\
   RenderGraph.get_physical_history_texture_resource S
     Fixtures.history_graph 0 = Some None) /\
  (RenderGraph.physical_history_image_attachments Fixtures.history_graph
     !! Z.to_nat 1 = Some (Some 42) /\
   RenderGraph.get_physical_history_texture_resource S
     Fixtures.history_graph 1 = Some (Some 43)).
Proof.
  split; (split; [reflexivity|]).
  - apply (history_texture_resource S Fixtures.history_graph 0 None);
      reflexivity.
  - apply (history_texture_resource S Fixtures.history_graph 1 (Some 42));
      reflexivity.
Defined.

(** *** The order produced by [bake] *)

Lemma check_Ok (b : bool) (e : bake_error) (u : unit) :
  check b e = Ok u -> b = true.
Proof. by destruct b. Qed.

Lemma bind_Ok {A B : Type} (m : result A) (f : A -> result B) (b : B) :
  m ≫= f = Ok b -> exists a, m = Ok a /\ f a = Ok b.
Proof. destruct m as [a|e]; [eauto | discriminate]. Qed.

(** A fold of checks succeeds only if each check does. *)
Lemma foldM_checks {A : Type} (f : A -> result unit) (l : list A) (u v : unit) :
  foldM (fun _ x => f x) u l = Ok v ->
  forall x, x ∈ l -> exists w, f x = Ok w.
Proof.
  revert u. induction l as [|y l IH]; intros u Hfold x Hx.
  - by apply elem_of_nil in Hx.
  - simpl in Hfold. apply bind_Ok in Hfold as (w & Hy & Hrest).
    apply elem_of_cons in Hx as [->|Hx]; [eauto|].
    by apply (IH w).
Qed.

Lemma filter_passes_elem (l : list Z) (x : Z) :
  x ∈ RenderGraph.filter_passes l <-> x ∈ l.
Proof.
  induction l as [|y l IH]; simpl; [done|].
  destruct (decide (y ∈ l)) as [Hy|Hy]; rewrite ?elem_of_cons, IH.
  - split; [tauto|]. intros [->|?]; tauto.
  - done.
Qed.

Lemma filter_passes_NoDup (l : list Z) : NoDup (RenderGraph.filter_passes l).
Proof.
  induction l as [|y l IH]; simpl; [constructor|].
  destruct (decide (y ∈ l)); [done|].
  constructor; [by rewrite filter_passes_elem | done].
Qed.

Lemma position_lookup (order : list Z) (x : Z) (i : nat) :
  RenderGraph.position x order = Some i -> order !! i = Some x.
Proof.
  revert i. induction order as [|y order IH]; intros i; simpl; [done|].
  destruct (decide (x = y)) as [->|Hne].
  - by intros [= <-].
  - destruct (RenderGraph.position x order) as [k|]; simpl; [|done].
    intros [= <-]. simpl. by apply IH.
Qed.

Lemma position_elem (order : list Z) (x : Z) :
  x ∈ order -> is_Some (RenderGraph.position x order).
Proof.
  induction order as [|y order IH]; simpl.
  - by intros ?%elem_of_nil.
  - intros Hx. destruct (decide (x = y)); [eauto|].
    apply elem_of_cons in Hx as [?|Hx]; [done|].
    destruct (IH Hx) as [k ->]. simpl. eauto.
Qed.

(** What the ordering check of the validation establishes. *)
Lemma precedes_lookup (order : list Z) (a b : Z) :
  a ∈ order -> b ∈ order ->
  RenderGraph.precedes order a b = true ->
  exists i j, order !! i = Some a /\ order !! j = Some b /\ i < j.
Proof.
  intros Ha Hb. unfold RenderGraph.precedes.
  destruct (position_elem order a Ha) as [i Hi].
  destruct (position_elem order b Hb) as [j Hj].
  rewrite Hi, Hj. intros Hlt%bool_decide_eq_true.
  exists i, j. eauto using position_lookup.
Qed.

Lemma validate_resource_precedes
    (backbuffer : Z) (order : list Z) (res : RenderResource.t) (u : unit)
    (w rd : Z) :
  RenderGraph.validate_resource backbuffer order res = Ok u ->
  w ∈ order -> rd ∈ order ->
  w ∈ RenderResource.get_write_passes res ->
  rd ∈ RenderResource.get_read_passes res ->
  RenderGraph.precedes order w rd = true.
Proof.
  unfold RenderGraph.validate_resource.
  intros Hval Hw Hrd Hwrites Hreads.
  apply bind_Ok in Hval as (_ & _ & Hval). apply check_Ok in Hval.
  rewrite forallb_forall in Hval.
  specialize (Hval w). rewrite forallb_forall in Hval.
  apply Hval; apply list_elem_of_In, list_elem_of_filter;
    (split; [done | by apply elem_of_elements]).
Qed.

(** The parts of a successful [bake]. *)
Lemma bake_Ok {Image : Type} (g g' : RenderGraph.t Image) :
  RenderGraph.bake g = Ok g' ->
  exists (backbuffer : Z) (seeds visited : list Z) (u : unit),
    RenderGraph.producers g backbuffer = Ok seeds /\
    RenderGraph.traverse g seeds = Ok visited /\
    RenderGraph.pass_stack g' =
      reverse (RenderGraph.filter_passes visited) /\
    RenderGraph.validate_passes g backbuffer (RenderGraph.pass_stack g')
      = Ok u /\
    RenderGraph.resources g' = RenderGraph.resources g /\
    RenderGraph.passes g' = RenderGraph.passes g.
Proof.
  unfold RenderGraph.bake.
  destruct (RenderGraph.resource_to_index g !! RenderGraph.backbuffer_source g)
    as [backbuffer|]; [|discriminate].
  intros Hbake.
  apply bind_Ok in Hbake as (seeds & Hseeds & Hbake).
  apply bind_Ok in Hbake as (visited & Hvisited & Hbake).
  apply bind_Ok in Hbake as (u & Hval & Hbake).
  injection Hbake as <-. simpl. by exists backbuffer, seeds, visited, u.
Qed.

(** *** The traversal orders producers first *)

Section Traversal.

Context {Image : Type} (g : RenderGraph.t Image).

(** [followed] is kept by concatenation: a dependency found inside a
    segment is still found, and still later, in a longer list. *)
Lemma followed_nil : RenderGraph.followed g [].
Proof. intros k q p Hk. by rewrite lookup_nil in Hk. Qed.

Lemma followed_app (l1 l2 : list Z) :
  RenderGraph.followed g l1 -> RenderGraph.followed g l2 ->
  RenderGraph.followed g (l1 ++ l2).
Proof.
  intros H1 H2 k q p Hk Hdep.
  destruct (decide (k < length l1)) as [Hlt|Hge].
  - rewrite lookup_app_l in Hk by done.
    destruct (H1 k q p Hk Hdep) as (k' & Hkk' & Hk').
    exists k'. split; [done|].
    rewrite lookup_app_l; [done|]. by eapply lookup_lt_Some.
  - rewrite lookup_app_r in Hk by lia.
    destruct (H2 _ q p Hk Hdep) as (k' & Hkk' & Hk').
    exists (length l1 + k'). split; [lia|].
    rewrite lookup_app_r by lia. by replace (length l1 + k' - length l1) with k' by lia.
Qed.

Lemma followed_concat (segs : list (list Z)) :
  Forall (RenderGraph.followed g) segs -> RenderGraph.followed g (concat segs).
Proof.
  induction 1; simpl; [apply followed_nil | by apply followed_app].
Qed.

Lemma elem_of_concat (x : Z) (segs : list (list Z)) :
  x ∈ concat segs <-> exists seg, seg ∈ segs /\ x ∈ seg.
Proof.
  induction segs as [|s segs IH]; simpl.
  - split; [by intros ?%elem_of_nil | by intros (? & ?%elem_of_nil & _)].
  - rewrite elem_of_app, IH. split.
    + intros [Hx|(seg & Hseg & Hx)]; [exists s | exists seg];
        (split; [|done]); [apply list_elem_of_here | by apply list_elem_of_further].
    + intros (seg & [->|Hseg]%elem_of_cons & Hx); eauto.
Qed.

(** A fold whose steps each append a segment appends the segments in turn. *)
Lemma foldM_segments {A : Type} (P : A -> list Z -> Prop)
    (f : list Z -> A -> result (list Z)) (l : list A) :
  (forall vis x vis', x ∈ l -> f vis x = Ok vis' ->
     exists seg, vis' = vis ++ seg /\ P x seg) ->
  forall vis vis', foldM f vis l = Ok vis' ->
    exists segs, vis' = vis ++ concat segs /\ Forall2 P l segs.
Proof.
  induction l as [|x l IH]; intros Hstep vis vis' Hfold; simpl in Hfold.
  - injection Hfold as <-. exists []. simpl. by rewrite app_nil_r.
  - apply bind_Ok in Hfold as (vis1 & Hx & Hrest).
    destruct (Hstep vis x vis1) as (seg & -> & HP); [apply list_elem_of_here|done|].
    destruct (IH (fun v y v' Hy => Hstep v y v' (list_elem_of_further _ _ _ Hy))
                 _ _ Hrest) as (segs & -> & Hsegs).
    exists (seg :: segs). simpl. rewrite app_assoc. by split; [|constructor].
Qed.

(** A successful expansion appends one segment to the visited list: the
    pass, then the segments of the producers of its inputs.  Within the
    segment every pass is followed by the passes it depends on. *)
Lemma expand_segment (fuel : nat) :
  forall (path visited : list Z) (pass : Z) (vis' : list Z),
    RenderGraph.expand g fuel path visited pass = Ok vis' ->
    exists seg, vis' = visited ++ pass :: seg /\
                RenderGraph.followed g (pass :: seg).
Proof.
  induction fuel as [|fuel IH]; intros path visited pass vis' Hexp;
    simpl in Hexp; [discriminate|].
  destruct (RenderGraph.passes g !! Z.to_nat pass) as [p|] eqn:Hp;
    [|discriminate].
  apply (foldM_segments
           (fun r seg =>
              RenderGraph.followed g seg /\
              forall res w, RenderGraph.resources g !! Z.to_nat r = Some res ->
                            w ∈ RenderResource.get_write_passes res ->
                            w ∈ seg)) in Hexp.
  - destruct Hexp as (segs & -> & Hsegs).
    exists (concat segs). split; [by rewrite <- app_assoc|].
    assert (RenderGraph.followed g (concat segs)) as Hfol.
    { apply followed_concat. eapply Forall2_Forall_r; [exact Hsegs|].
      apply Forall_forall. intros r _ seg [? _]. done. }
    intros [|k] q w Hk Hdep; simpl in Hk.
    + injection Hk as <-.
      destruct Hdep as (p' & r & res & Hp' & Hr & Hres & Hw).
      rewrite Hp in Hp'. injection Hp' as <-.
      apply list_elem_of_lookup in Hr as [n Hn].
      destruct (Forall2_lookup_l _ _ _ _ _ Hsegs Hn) as (seg & Hseg & _ & Hin).
      assert (w ∈ concat segs) as Hwin.
      { apply elem_of_concat. exists seg.
        split; [by eapply list_elem_of_lookup_2 | by eapply Hin]. }
      apply list_elem_of_lookup in Hwin as [k' Hk'].
      exists (S k'). split; [lia|done].
    + destruct (Hfol k q w Hk Hdep) as (k' & Hkk' & Hk').
      exists (S k'). split; [lia|done].
  - intros vis r vis1 Hr Hstep.
    apply bind_Ok in Hstep as (ws & Hws & Hstep).
    unfold RenderGraph.producers in Hws.
    destruct (RenderGraph.resources g !! Z.to_nat r) as [res|] eqn:Hres;
      [|discriminate].
    injection Hws as <-.
    apply (foldM_segments
             (fun w seg => RenderGraph.followed g seg /\ w ∈ seg)) in Hstep.
    + destruct Hstep as (segs & -> & Hsegs).
      exists (concat segs). split; [done|]. split.
      * apply followed_concat. eapply Forall2_Forall_r; [exact Hsegs|].
        apply Forall_forall. intros w _ seg [? _]. done.
      * intros res' w [= <-] Hw.
        apply elem_of_elements, list_elem_of_lookup in Hw as [n Hn].
        destruct (Forall2_lookup_l _ _ _ _ _ Hsegs Hn) as (seg & Hseg & _ & Hin).
        apply elem_of_concat. exists seg.
        split; [by eapply list_elem_of_lookup_2 | done].
    + intros vis2 w vis3 _ Hw.
      destruct (decide (w = pass)); [discriminate|].
      destruct (decide (w ∈ path)); [discriminate|].
      apply IH in Hw as (seg & -> & Hfol).
      exists (w :: seg). split; [done|]. split; [done|apply list_elem_of_here].
Qed.

(** Hence the whole visited list has the property. *)
Lemma traverse_followed (seeds visited : list Z) :
  RenderGraph.traverse g seeds = Ok visited -> RenderGraph.followed g visited.
Proof.
  unfold RenderGraph.traverse. intros Htr.
  apply (foldM_segments (fun _ seg => RenderGraph.followed g seg)) in Htr.
  - destruct Htr as (segs & -> & Hsegs). simpl.
    apply followed_concat. eapply Forall2_Forall_r; [exact Hsegs|].
    apply Forall_forall. by intros w _ seg.
  - intros vis w vis' _ Hexp.
    apply expand_segment in Hexp as (seg & -> & Hfol). eauto.
Qed.

Lemma followed_tail (x : Z) (l : list Z) :
  RenderGraph.followed g (x :: l) -> RenderGraph.followed g l.
Proof.
  intros Hfol k q p Hk Hdep.
  destruct (Hfol (S k) q p Hk Hdep) as ([|k'] & Hlt & Hk'); [lia|].
  exists k'. split; [lia|done].
Qed.

(** Collapsing duplicates to their last occurrence keeps every pass ahead
    of the passes it depends on. *)
Lemma filter_passes_followed (vis : list Z) (q p : Z) :
  RenderGraph.followed g vis -> q ∈ vis -> RenderGraph.depends_on g q p ->
  exists i j : nat,
    RenderGraph.filter_passes vis !! i = Some q /\
    RenderGraph.filter_passes vis !! j = Some p /\
    i < j.
Proof.
  intros Hfol Hq Hdep. induction vis as [|x l IH]; [by apply elem_of_nil in Hq|].
  specialize (IH (followed_tail _ _ Hfol)). simpl.
  destruct (decide (x ∈ l)) as [Hx|Hx].
  - apply IH. apply elem_of_cons in Hq as [->|Hq]; done.
  - destruct (decide (q = x)) as [->|Hne].
    + destruct (Hfol 0 x p eq_refl Hdep) as ([|k'] & Hlt & Hk'); [lia|].
      simpl in Hk'. apply list_elem_of_lookup_2 in Hk'.
      apply filter_passes_elem, list_elem_of_lookup in Hk' as [j Hj].
      exists 0, (S j). repeat split; [done|lia].
    + apply elem_of_cons in Hq as [?|Hq]; [done|].
      destruct (IH Hq) as (i & j & Hi & Hj & Hlt).
      exists (S i), (S j). repeat split; [done..|lia].
Qed.

(** Reversal exchanges earlier and later. *)
Lemma reverse_lookup_before (l : list Z) (i j : nat) (x y : Z) :
  l !! i = Some x -> l !! j = Some y -> i < j ->
  exists i' j' : nat,
    reverse l !! i' = Some y /\ reverse l !! j' = Some x /\ i' < j'.
Proof.
  intros Hi Hj Hlt.
  apply lookup_lt_Some in Hi as Hil. apply lookup_lt_Some in Hj as Hjl.
  exists (length l - S j), (length l - S i).
  rewrite !reverse_lookup by lia.
  replace (length l - S (length l - S j)) with j by lia.
  replace (length l - S (length l - S i)) with i by lia.
  repeat split; [done..|lia].
Qed.

End Traversal.

(** In the baked order every pass comes after the producers of its inputs. *)
Lemma bake_orders_dependencies {Image : Type} (g g' : RenderGraph.t Image)
    (q p : Z) :
  RenderGraph.bake g = Ok g' ->
  q ∈ RenderGraph.pass_stack g' ->
  RenderGraph.depends_on g q p ->
  exists i j : nat,
    RenderGraph.pass_stack g' !! i = Some p /\
    RenderGraph.pass_stack g' !! j = Some q /\
    i < j.
Proof.
  intros Hbake Hq Hdep.
  destruct (bake_Ok g g' Hbake)
    as (backbuffer & seeds & visited & u & _ & Htr & Horder & _).
  rewrite Horder in *.
  rewrite elem_of_reverse, filter_passes_elem in Hq.
  destruct (filter_passes_followed g visited q p) as (i & j & Hi & Hj & Hlt);
    [by eapply traverse_followed | done..|].
  eapply reverse_lookup_before; eauto.
Qed.


(** C2. Topological soundness of the baked order: each pass occurs once in
    it, and for every two passes [A] and [B] of the order such that [B] reads
    a resource that [A] writes, [A] stands at an earlier position than [B]. *)
Theorem bake_topological_soundness
    {Image : Type} (g g' : RenderGraph.t Image) (A B r : Z)
    (Hbake : RenderGraph.bake g = Ok g')
    (HA : A ∈ RenderGraph.pass_stack g')
    (HB : B ∈ RenderGraph.pass_stack g')
    (Hwrites : RenderGraph.writes g' A r)
    (Hreads : RenderGraph.reads g' B r) :
  NoDup (RenderGraph.pass_stack g') /\
  exists i j : nat,
    RenderGraph.pass_stack g' !! i = Some A /\
    RenderGraph.pass_stack g' !! j = Some B /\
    i < j.
Proof.
  destruct (bake_Ok g g' Hbake)
    as (backbuffer & seeds & visited & u & _ & _ & Horder & Hval & Hrs & Hps).
  split.
  { rewrite Horder, reverse_Permutation. apply filter_passes_NoDup. }
  destruct Hwrites as (res & Hres & HAw). rewrite Hrs in Hres.
  destruct Hreads as [(res' & Hres' & HBr)|(pass & Hpass & Hr)].
  - rewrite Hrs, Hres in Hres'. injection Hres' as <-.
    unfold RenderGraph.validate_passes in Hval.
    apply bind_Ok in Hval as (v & Hval & _).
    apply list_elem_of_lookup_2 in Hres.
    destruct (foldM_checks _ _ _ _ Hval res Hres) as [w Hw].
    apply precedes_lookup; [done..|].
    by eapply validate_resource_precedes.
  - rewrite Hps in Hpass.
    apply (bake_orders_dependencies g g' B A Hbake HB).
    by exists pass, r, res.
Qed.

Lemma bake_topological_soundness_witness :
  exists g' : RenderGraph.t unit,
    RenderGraph.bake Fixtures.merge_graph = Ok g' /\
    RenderGraph.pass_stack g' = [0; 1]%Z /\
    NoDup (RenderGraph.pass_stack g') /\
    exists i j : nat,
      RenderGraph.pass_stack g' !! i = Some 0%Z /\
      RenderGraph.pass_stack g' !! j = Some 1%Z /\
      i < j.
Proof.
  eexists. split; [vm_compute; reflexivity|]. split; [reflexivity|].
  apply (bake_topological_soundness Fixtures.merge_graph _ 0%Z 1%Z 0%Z).
  - vm_compute. reflexivity.
  - simpl. apply list_elem_of_here.
  - simpl. apply list_elem_of_further, list_elem_of_here.
  - exists Fixtures.resource_c0. split; [reflexivity|].
    apply elem_of_list_to_set, list_elem_of_here.
  - left. exists Fixtures.resource_c0. split; [reflexivity|].
    apply elem_of_list_to_set, list_elem_of_here.
Defined.

(** The model on the scenarios of the spec: a two-pass cycle is rejected, a
    pass reading its own output as history is accepted, and the shared
    producer of a diamond is placed once, ahead of both its consumers. *)
Example bake_rejects_cycle :
  RenderGraph.bake Fixtures.cycle_graph = Err Cycle.
Proof. vm_compute. reflexivity. Qed.

Example bake_accepts_history :
  exists g', RenderGraph.bake Fixtures.history_pass_graph = Ok g' /\
             RenderGraph.pass_stack g' = [0%Z].
Proof. eexists. split; [vm_compute; reflexivity | reflexivity]. Qed.

Example bake_orders_diamond :
  RenderGraph.traverse Fixtures.diamond_graph [3%Z]
    = Ok [3; 1; 0; 2; 0]%Z /\
  exists g', RenderGraph.bake Fixtures.diamond_graph = Ok g' /\
             RenderGraph.pass_stack g' = [0; 2; 1; 3]%Z.
Proof.
  split; [vm_compute; reflexivity|].
  eexists. split; [vm_compute; reflexivity | reflexivity].
Qed.

(** ** Further properties of the header *)

(** *** Descriptor equality *)

Lemma BufferInfo_eq_iff (a b : BufferInfo.t) :
  BufferInfo.operator_eq a b = true <-> a = b.
Proof.
  destruct a as [s1 u1 p1], b as [s2 u2 p2].
  unfold BufferInfo.operator_eq. simpl.
  rewrite !andb_true_iff, !Z.eqb_eq, Bool.eqb_true_iff.
  split; [intros [[-> ->] ->]; reflexivity | intros [= -> -> ->]; auto].
Qed.

(** A boolean relation that reflects an equivalence is symmetric. *)
Lemma reflected_sym {A : Type} (f : A -> A -> bool) (R : A -> A -> Prop) :
  (forall a b, f a b = true <-> R a b) ->
  (forall a b, R a b -> R b a) ->
  forall a b, f a b = f b a.
Proof.
  intros Hf Hsym a b.
  destruct (f a b) eqn:Hab; destruct (f b a) eqn:Hba; try reflexivity.
  - apply Hf, Hsym, Hf in Hab. congruence.
  - apply Hf, Hsym, Hf in Hba. congruence.
Qed.

(** X1. [BufferInfo::operator==] is an equivalence relation and holds exactly
    for identical descriptors. *)
Theorem BufferInfo_eq_equivalence :
  (forall a, BufferInfo.operator_eq a a = true) /\
  (forall a b, BufferInfo.operator_eq a b = BufferInfo.operator_eq b a) /\
  (forall a b c, BufferInfo.operator_eq a b = true ->
                 BufferInfo.operator_eq b c = true ->
                 BufferInfo.operator_eq a c = true) /\
  (forall a b, BufferInfo.operator_eq a b = true <-> a = b).
Proof.
  split; [intros a; by apply BufferInfo_eq_iff|].
  split; [apply (reflected_sym _ eq BufferInfo_eq_iff); by intros|].
  split; [|apply BufferInfo_eq_iff].
  intros a b c Hab%BufferInfo_eq_iff Hbc%BufferInfo_eq_iff.
  apply BufferInfo_eq_iff. congruence.
Qed.

(** The members [ResourceDimensions::operator==] compares between its two
    operands. *)
Lemma ResourceDimensions_eq_iff (a b : ResourceDimensions.t) :
  ResourceDimensions.operator_eq a b = true <->
  ResourceDimensions.format a = ResourceDimensions.format b /\
  ResourceDimensions.width a = ResourceDimensions.width b /\
  ResourceDimensions.height a = ResourceDimensions.height b /\
  ResourceDimensions.depth a = ResourceDimensions.depth b /\
  ResourceDimensions.layers a = ResourceDimensions.layers b /\
  ResourceDimensions.levels a = ResourceDimensions.levels b /\
  ResourceDimensions.transient a = ResourceDimensions.transient b /\
  ResourceDimensions.persistent a = ResourceDimensions.persistent b /\
  ResourceDimensions.storage a = ResourceDimensions.storage b.
Proof.
  unfold ResourceDimensions.operator_eq.
  rewrite (proj2 (BufferInfo_eq_iff _ _) eq_refl).
  rewrite !andb_true_iff, !Z.eqb_eq, !Bool.eqb_true_iff. tauto.
Qed.

(** X2. [ResourceDimensions::operator==] holds exactly when the nine members
    other than [buffer_info] agree, whatever the buffer descriptors of the
    two operands are. *)
Theorem ResourceDimensions_eq_members
    (a b : ResourceDimensions.t) (ia ib : BufferInfo.t) :
  let with_info d i :=
    {| ResourceDimensions.format := ResourceDimensions.format d;
       ResourceDimensions.buffer_info := i;
       ResourceDimensions.width := ResourceDimensions.width d;
       ResourceDimensions.height := ResourceDimensions.height d;
       ResourceDimensions.depth := ResourceDimensions.depth d;
       ResourceDimensions.layers := ResourceDimensions.layers d;
       ResourceDimensions.levels := ResourceDimensions.levels d;
       ResourceDimensions.transient := ResourceDimensions.transient d;
       ResourceDimensions.persistent := ResourceDimensions.persistent d;
       ResourceDimensions.storage := ResourceDimensions.storage d |} in
  (ResourceDimensions.operator_eq a b = true <->
   ResourceDimensions.format a = ResourceDimensions.format b /\
   ResourceDimensions.width a = ResourceDimensions.width b /\
   ResourceDimensions.height a = ResourceDimensions.height b /\
   ResourceDimensions.depth a = ResourceDimensions.depth b /\
   ResourceDimensions.layers a = ResourceDimensions.layers b /\
   ResourceDimensions.levels a = ResourceDimensions.levels b /\
   ResourceDimensions.transient a = ResourceDimensions.transient b /\
   ResourceDimensions.persistent a = ResourceDimensions.persistent b /\
   ResourceDimensions.storage a = ResourceDimensions.storage b) /\
  ResourceDimensions.operator_eq (with_info a ia) (with_info b ib) =
  ResourceDimensions.operator_eq a b.
Proof.
  simpl. split; [apply ResourceDimensions_eq_iff|].
  unfold ResourceDimensions.operator_eq. simpl.
  by rewrite !(proj2 (BufferInfo_eq_iff _ _) eq_refl).
Qed.

(** X3. [ResourceDimensions::operator==] is an equivalence relation, and
    [operator!=] holds exactly when [operator==] does not. *)
Theorem ResourceDimensions_eq_equivalence :
  (forall a, ResourceDimensions.operator_eq a a = true) /\
  (forall a b, ResourceDimensions.operator_eq a b =
               ResourceDimensions.operator_eq b a) /\
  (forall a b c, ResourceDimensions.operator_eq a b = true ->
                 ResourceDimensions.operator_eq b c = true ->
                 ResourceDimensions.operator_eq a c = true) /\
  (forall a b, ResourceDimensions.operator_ne a b = true <->
               ResourceDimensions.operator_eq a b = false).
Proof.
  split; [intros a; apply ResourceDimensions_eq_iff; tauto|].
  split; [apply (reflected_sym _ _ ResourceDimensions_eq_iff);
          intros; intuition congruence|].
  split.
  - intros a b c Hab%ResourceDimensions_eq_iff Hbc%ResourceDimensions_eq_iff.
    apply ResourceDimensions_eq_iff. intuition congruence.
  - intros a b. unfold ResourceDimensions.operator_ne.
    apply negb_true_iff.
Qed.

(** *** Histories of calls on a resource *)

Lemma foldl_snoc {A B : Type} (f : A -> B -> A) (a : A) (l : list B) (x : B) :
  foldl f a (l ++ [x]) = f (foldl f a l) x.
Proof. by rewrite foldl_app. Qed.

Lemma last_omap_snoc {A B : Type} (f : A -> option B) (l : list A) (x : A) :
  last (omap f (l ++ [x])) =
  match f x with Some y => Some y | None => last (omap f l) end.
Proof.
  rewrite omap_app. simpl. destruct (f x) as [y|]; simpl.
  - by rewrite last_snoc.
  - by rewrite app_nil_r.
Qed.

Lemma resource_calls_identity (cs : list ResourceCalls.t) (r : RenderResource.t) :
  RenderResource.get_type (ResourceCalls.run cs r) = RenderResource.get_type r /\
  RenderResource.get_index (ResourceCalls.run cs r) = RenderResource.get_index r.
Proof.
  induction cs as [|c cs IH] using rev_ind; [done|].
  unfold ResourceCalls.run in *. rewrite foldl_snoc.
  destruct IH as [<- <-]. by destruct c.
Qed.

(** X4. No member of [RenderResource] changes the type or the logical index:
    through every history of calls they are what the constructor was
    given. *)
Theorem resource_identity_invariant
    (type : RenderResource.Type_) (idx : Z) (cs : list ResourceCalls.t) :
  RenderResource.get_type
    (ResourceCalls.run cs (RenderResource.make type idx)) = type /\
  RenderResource.get_index
    (ResourceCalls.run cs (RenderResource.make type idx)) = idx.
Proof.
  induction cs as [|c cs [IHt IHi]] using rev_ind; [done|].
  unfold ResourceCalls.run in *. rewrite foldl_snoc.
  destruct c; simpl; by split.
Qed.

(** X5. After a history of calls the write set holds exactly the indices
    passed to [written_in_pass], added to those it held before, and the read
    set exactly those passed to [read_in_pass]: neither edge kind leaks into
    the other and [set_physical_index] touches neither. *)
Theorem resource_edge_sets_after
    (cs : list ResourceCalls.t) (r : RenderResource.t) :
  RenderResource.get_write_passes (ResourceCalls.run cs r) =
    list_to_set (omap ResourceCalls.written_arg cs) ∪
    RenderResource.get_write_passes r /\
  RenderResource.get_read_passes (ResourceCalls.run cs r) =
    list_to_set (omap ResourceCalls.read_arg cs) ∪
    RenderResource.get_read_passes r.
Proof.
  induction cs as [|c cs IH] using rev_ind.
  - simpl. split; apply set_eq; intros x;
      rewrite elem_of_union, elem_of_empty; tauto.
  - unfold ResourceCalls.run in *. rewrite foldl_snoc, !omap_app.
    destruct IH as [IHw IHr].
    unfold RenderResource.get_write_passes, RenderResource.get_read_passes in *.
    destruct c; simpl; rewrite ?IHw, ?IHr, ?app_nil_r; split; try reflexivity;
      apply set_eq; intros x;
      rewrite !elem_of_union, ?elem_of_list_to_set, ?elem_of_app,
              ?list_elem_of_singleton, ?elem_of_singleton, ?elem_of_union,
              ?elem_of_list_to_set; tauto.
Qed.

(** X6. After a history of calls the physical index is the argument of the
    last [set_physical_index], or the earlier value if there was none. *)
Theorem resource_physical_index_after
    (cs : list ResourceCalls.t) (r : RenderResource.t) :
  RenderResource.get_physical_index (ResourceCalls.run cs r) =
  default (RenderResource.get_physical_index r)
          (last (omap ResourceCalls.physical_arg cs)).
Proof.
  induction cs as [|c cs IH] using rev_ind; [done|].
  unfold ResourceCalls.run in *. rewrite foldl_snoc, last_omap_snoc.
  destruct c; simpl; try exact IH. reflexivity.
Qed.

(** X7. Recording an index that the set already holds leaves the whole
    resource unchanged, for [written_in_pass] and for [read_in_pass]. *)
Theorem recording_present_index_is_noop (r : RenderResource.t) (n : Z) :
  (n ∈ RenderResource.get_write_passes r ->
   RenderResource.written_in_pass n r = r) /\
  (n ∈ RenderResource.get_read_passes r ->
   RenderResource.read_in_pass n r = r).
Proof.
  destruct r as [ty idx ph ws rs].
  unfold RenderResource.written_in_pass, RenderResource.read_in_pass.
  simpl. split; intros Hin; f_equal; apply set_eq; intros x;
    rewrite elem_of_union, elem_of_singleton;
    (split; [intros [->|]|]; auto).
Qed.

Lemma recording_present_index_is_noop_witness :
  let r := RenderResource.read_in_pass 2
             (RenderResource.written_in_pass 7
                (RenderResource.make RenderResource.Texture 3)) in
  (7%Z ∈ RenderResource.get_write_passes r /\
   RenderResource.written_in_pass 7 r = r) /\
  (2%Z ∈ RenderResource.get_read_passes r /\
   RenderResource.read_in_pass 2 r = r).
Proof.
  intros r.
  assert (7%Z ∈ RenderResource.get_write_passes r) as Hw
    by (apply elem_of_union_l, elem_of_singleton; reflexivity).
  assert (2%Z ∈ RenderResource.get_read_passes r) as Hr
    by (apply elem_of_union_l, elem_of_singleton; reflexivity).
  split; (split; [assumption|]).
  - exact (proj1 (recording_present_index_is_noop r 7%Z) Hw).
  - exact (proj2 (recording_present_index_is_noop r 2%Z) Hr).
Defined.




(** *** Exchanging color inputs *)

(** What a successful [make_color_input_scaled] returns. *)
Lemma make_color_input_scaled_Some (idx : Z) (p p' : RenderPass.t) :
  RenderPass.make_color_input_scaled idx p = Some p' ->
  exists scaled plain : RenderPass.resource_ptr,
    RenderPass.color_scale_inputs p !! Z.to_nat idx = Some scaled /\
    RenderPass.color_inputs p !! Z.to_nat idx = Some plain /\
    p' =
    {| RenderPass.graph := RenderPass.graph p;
       RenderPass.index := RenderPass.index p;
       RenderPass.physical_pass := RenderPass.physical_pass p;
       RenderPass.stages := RenderPass.stages p;
       RenderPass.color_outputs := RenderPass.color_outputs p;
       RenderPass.color_inputs :=
         <[Z.to_nat idx := scaled]> (RenderPass.color_inputs p);
       RenderPass.color_scale_inputs :=
         <[Z.to_nat idx := plain]> (RenderPass.color_scale_inputs p);
       RenderPass.texture_inputs := RenderPass.texture_inputs p;
       RenderPass.storage_texture_inputs := RenderPass.storage_texture_inputs p;
       RenderPass.storage_texture_outputs :=
         RenderPass.storage_texture_outputs p;
       RenderPass.attachments_inputs := RenderPass.attachments_inputs p;
       RenderPass.history_inputs := RenderPass.history_inputs p;
       RenderPass.uniform_inputs := RenderPass.uniform_inputs p;
       RenderPass.storage_outputs := RenderPass.storage_outputs p;
       RenderPass.storage_read_inputs := RenderPass.storage_read_inputs p;
       RenderPass.storage_inputs := RenderPass.storage_inputs p;
       RenderPass.depth_stencil_input := RenderPass.depth_stencil_input p;
       RenderPass.depth_stencil_output := RenderPass.depth_stencil_output p;
       RenderPass.implementation := RenderPass.implementation p |}.
Proof.
  unfold RenderPass.make_color_input_scaled. intros H.
  destruct (RenderPass.color_scale_inputs p !! Z.to_nat idx) as [scaled|];
    [|discriminate].
  destruct (RenderPass.color_inputs p !! Z.to_nat idx) as [plain|];
    [|discriminate].
  simpl in H. injection H as <-. by exists scaled, plain.
Qed.

(** X9. [make_color_input_scaled] is its own inverse: a second call at the
    same index gives back the pass as it was before the first. *)
Theorem make_color_input_scaled_involutive
    (idx : Z) (p p' : RenderPass.t)
    (Hfirst : RenderPass.make_color_input_scaled idx p = Some p') :
  RenderPass.make_color_input_scaled idx p' = Some p.
Proof.
  apply make_color_input_scaled_Some in Hfirst
    as (scaled & plain & Hs & Hp & ->).
  apply lookup_lt_Some in Hs as Hls. apply lookup_lt_Some in Hp as Hlp.
  unfold RenderPass.make_color_input_scaled. simpl.
  rewrite !list_lookup_insert_eq by done. simpl.
  rewrite !list_insert_insert_eq, !list_insert_id by done.
  by destruct p.
Qed.

Lemma make_color_input_scaled_involutive_witness :
  exists p',
    RenderPass.make_color_input_scaled 1 Fixtures.two_slot_pass = Some p' /\
    RenderPass.get_color_inputs p' = [Some 4%Z; Some 9%Z] /\
    RenderPass.make_color_input_scaled 1 p' = Some Fixtures.two_slot_pass.
Proof.
  eexists. split; [reflexivity|]. split; [reflexivity|].
  apply (make_color_input_scaled_involutive 1 Fixtures.two_slot_pass).
  reflexivity.
Defined.

(** X10. [make_color_input_scaled] changes the two lists at one slot only:
    both keep their length, and every other member of the pass, the other
    edge lists included, is left as it was. *)
Theorem make_color_input_scaled_frame
    (idx : Z) (p p' : RenderPass.t)
    (Hcall : RenderPass.make_color_input_scaled idx p = Some p') :
  length (RenderPass.get_color_inputs p') =
    length (RenderPass.get_color_inputs p) /\
  length (RenderPass.get_color_scale_inputs p') =
    length (RenderPass.get_color_scale_inputs p) /\
  RenderPass.get_color_outputs p' = RenderPass.get_color_outputs p /\
  RenderPass.get_texture_inputs p' = RenderPass.get_texture_inputs p /\
  RenderPass.get_storage_texture_inputs p' =
    RenderPass.get_storage_texture_inputs p /\
  RenderPass.get_storage_texture_outputs p' =
    RenderPass.get_storage_texture_outputs p /\
  RenderPass.get_attachment_inputs p' = RenderPass.get_attachment_inputs p /\
  RenderPass.get_history_inputs p' = RenderPass.get_history_inputs p /\
  RenderPass.get_uniform_inputs p' = RenderPass.get_uniform_inputs p /\
  RenderPass.get_storage_outputs p' = RenderPass.get_storage_outputs p /\
  RenderPass.get_storage_read_inputs p' = RenderPass.get_storage_read_inputs p /\
  RenderPass.get_storage_inputs p' = RenderPass.get_storage_inputs p /\
  RenderPass.get_depth_stencil_input p' = RenderPass.get_depth_stencil_input p /\
  RenderPass.get_depth_stencil_output p' =
    RenderPass.get_depth_stencil_output p /\
  RenderPass.get_implementation p' = RenderPass.get_implementation p /\
  RenderPass.get_physical_pass_index p' = RenderPass.get_physical_pass_index p /\
  RenderPass.get_stages p' = RenderPass.get_stages p /\
  RenderPass.get_index p' = RenderPass.get_index p /\
  RenderPass.get_graph p' = RenderPass.get_graph p.
Proof.
  apply make_color_input_scaled_Some in Hcall as (scaled & plain & _ & _ & ->).
  unfold RenderPass.get_color_inputs, RenderPass.get_color_scale_inputs.
  simpl. rewrite !length_insert. repeat split.
Qed.

Lemma make_color_input_scaled_frame_witness :
  exists p',
    RenderPass.make_color_input_scaled 0 Fixtures.two_slot_pass = Some p' /\
    length (RenderPass.get_color_inputs p') = 2 /\
    RenderPass.get_color_outputs p' = [Some 5%Z; Some 6%Z].
Proof.
  eexists. split; [reflexivity|].
  destruct (make_color_input_scaled_frame 0 Fixtures.two_slot_pass _ eq_refl)
    as (Hlen & _ & Hout & _).
  split; [exact Hlen | exact Hout].
Defined.

(** X11. Calls of [make_color_input_scaled] at two indices commute: both
    orders give the same pass, or both have no result. *)
Theorem make_color_input_scaled_commute (idx1 idx2 : Z) (p : RenderPass.t) :
  RenderPass.make_color_input_scaled idx1 p
    ≫= RenderPass.make_color_input_scaled idx2 =
  RenderPass.make_color_input_scaled idx2 p
    ≫= RenderPass.make_color_input_scaled idx1.
Proof.
  unfold RenderPass.make_color_input_scaled.
  destruct p as [g i ph st co ci cs ti sti sto ai hi ui so sri si dsi dso im].
  simpl. generalize (Z.to_nat idx1) (Z.to_nat idx2). intros a b.
  destruct (decide (a = b)) as [->|Hne]; [reflexivity|].
  assert (b <> a) as Hne' by done.
  assert (forall x, <[b:=x]> cs !! a = cs !! a) as Hcs_ba
    by (intros; by apply list_lookup_insert_ne).
  assert (forall x, <[b:=x]> ci !! a = ci !! a) as Hci_ba
    by (intros; by apply list_lookup_insert_ne).
  assert (forall x, <[a:=x]> cs !! b = cs !! b) as Hcs_ab
    by (intros; by apply list_lookup_insert_ne).
  assert (forall x, <[a:=x]> ci !! b = ci !! b) as Hci_ab
    by (intros; by apply list_lookup_insert_ne).
  destruct (cs !! a) as [sa|] eqn:Hsa; simpl.
  2:{ destruct (cs !! b) as [sb|]; simpl; [|reflexivity].
      destruct (ci !! b) as [pb|]; simpl; [|reflexivity].
      by rewrite Hcs_ba. }
  destruct (ci !! a) as [pa|] eqn:Hpa; simpl.
  2:{ destruct (cs !! b) as [sb|]; simpl; [|reflexivity].
      destruct (ci !! b) as [pb|]; simpl; [|reflexivity].
      by rewrite Hcs_ba, Hci_ba. }
  rewrite Hcs_ab, Hci_ab.
  destruct (cs !! b) as [sb|] eqn:Hsb; simpl; [|reflexivity].
  destruct (ci !! b) as [pb|] eqn:Hpb; simpl; [|reflexivity].
  rewrite Hcs_ba, Hci_ba. simpl.
  by rewrite (list_insert_insert_ne ci a b), (list_insert_insert_ne cs a b).
Qed.

(** *** Histories of calls on a pass *)

(** The effect of one call on slot [j] of the two color input lists. *)
Lemma run_one_slot (c : PassCalls.t) (p p1 : RenderPass.t) (j : nat) :
  PassCalls.run_one c p = Some p1 ->
  RenderPass.color_inputs p1 !! j =
    (if decide (PassCalls.exchanged_slot c = Some j)
     then RenderPass.color_scale_inputs p !! j
     else RenderPass.color_inputs p !! j) /\
  RenderPass.color_scale_inputs p1 !! j =
    (if decide (PassCalls.exchanged_slot c = Some j)
     then RenderPass.color_inputs p !! j
     else RenderPass.color_scale_inputs p !! j).
Proof.
  destruct c as [impl|idx|n]; simpl.
  - intros [= <-]. done.
  - intros (scaled & plain & Hs & Hp & ->)%make_color_input_scaled_Some.
    apply lookup_lt_Some in Hs as Hls. apply lookup_lt_Some in Hp as Hlp.
    simpl. destruct (decide (Some (Z.to_nat idx) = Some j)) as [[= <-]|Hne].
    + by rewrite !list_lookup_insert_eq.
    + rewrite !list_lookup_insert_ne; [done|congruence..].
  - intros [= <-]. done.
Qed.

Lemma exchanges_cons (j : nat) (c : PassCalls.t) (cs : list PassCalls.t) :
  PassCalls.exchanges j (c :: cs) =
  if decide (PassCalls.exchanged_slot c = Some j)
  then S (PassCalls.exchanges j cs)
  else PassCalls.exchanges j cs.
Proof.
  unfold PassCalls.exchanges. simpl.
  destruct (PassCalls.exchanged_slot c) as [k|]; simpl.
  - rewrite filter_cons. destruct (decide (k = j)) as [->|Hne].
    + by rewrite decide_True.
    + by rewrite decide_False by congruence.
  - done.
Qed.

(** X12. After any history of calls on a pass, slot [j] of the color input
    and color scale input lists is exchanged if and only if
    [make_color_input_scaled] was called on [j] an odd number of times;
    [set_implementation] and [set_physical_pass_index] never move an edge. *)
Theorem pass_history_slots
    (cs : list PassCalls.t) (p p' : RenderPass.t) (j : nat)
    (Hrun : PassCalls.run cs p = Some p') :
  RenderPass.get_color_inputs p' !! j =
    (if Nat.even (PassCalls.exchanges j cs)
     then RenderPass.get_color_inputs p !! j
     else RenderPass.get_color_scale_inputs p !! j) /\
  RenderPass.get_color_scale_inputs p' !! j =
    (if Nat.even (PassCalls.exchanges j cs)
     then RenderPass.get_color_scale_inputs p !! j
     else RenderPass.get_color_inputs p !! j).
Proof.
  unfold RenderPass.get_color_inputs, RenderPass.get_color_scale_inputs.
  revert p Hrun. induction cs as [|c cs IH]; intros p Hrun; simpl in Hrun.
  - by injection Hrun as <-.
  - destruct (PassCalls.run_one c p) as [p1|] eqn:Hone; [|discriminate].
    simpl in Hrun. destruct (IH p1 Hrun) as [IHi IHs].
    destruct (run_one_slot c p p1 j Hone) as [Hi Hs].
    rewrite IHi, IHs, Hi, Hs, exchanges_cons.
    destruct (decide (PassCalls.exchanged_slot c = Some j)); [|done].
    rewrite Nat.even_succ, <- Nat.negb_even.
    by destruct (Nat.even (PassCalls.exchanges j cs)).
Qed.

Lemma pass_history_slots_witness :
  exists p',
    PassCalls.run
      [PassCalls.MakeColorInputScaled 0; PassCalls.SetPhysicalPassIndex 3;
       PassCalls.MakeColorInputScaled 1; PassCalls.MakeColorInputScaled 0]
      Fixtures.two_slot_pass = Some p' /\
    (RenderPass.get_color_inputs p' !! 0 = Some (Some 4%Z) /\
     RenderPass.get_color_scale_inputs p' !! 0 = Some None) /\
    (RenderPass.get_color_inputs p' !! 1 = Some (Some 9%Z) /\
     RenderPass.get_color_scale_inputs p' !! 1 = Some None).
Proof.
  eexists. split; [reflexivity|]. split.
  - apply (pass_history_slots
             [PassCalls.MakeColorInputScaled 0; PassCalls.SetPhysicalPassIndex 3;
              PassCalls.MakeColorInputScaled 1; PassCalls.MakeColorInputScaled 0]
             Fixtures.two_slot_pass _ 0 eq_refl).
  - apply (pass_history_slots
             [PassCalls.MakeColorInputScaled 0; PassCalls.SetPhysicalPassIndex 3;
              PassCalls.MakeColorInputScaled 1; PassCalls.MakeColorInputScaled 0]
             Fixtures.two_slot_pass _ 1 eq_refl).
Defined.

Lemma default_last_omap_cons {A B : Type} (f : A -> option B) (d : B)
    (c : A) (cs : list A) :
  default d (last (omap f (c :: cs))) =
  default (default d (f c)) (last (omap f cs)).
Proof.
  change (omap f (c :: cs))
    with (match f c with Some y => y :: omap f cs | None => omap f cs end).
  destruct (f c) as [y|]; simpl; [|done].
  rewrite last_cons. by destruct (last (omap f cs)).
Qed.

(** X13. Through any history of calls on a pass the implementation and the
    physical pass index are the arguments of the last [set_implementation]
    and [set_physical_pass_index], or the earlier values if there was none;
    the logical index, the stages and the graph never change. *)
Theorem pass_history_members
    (cs : list PassCalls.t) (p p' : RenderPass.t)
    (Hrun : PassCalls.run cs p = Some p') :
  RenderPass.get_implementation p' =
    default (RenderPass.get_implementation p)
            (last (omap PassCalls.implementation_arg cs)) /\
  RenderPass.get_physical_pass_index p' =
    default (RenderPass.get_physical_pass_index p)
            (last (omap PassCalls.physical_pass_arg cs)) /\
  RenderPass.get_index p' = RenderPass.get_index p /\
  RenderPass.get_stages p' = RenderPass.get_stages p /\
  RenderPass.get_graph p' = RenderPass.get_graph p.
Proof.
  unfold RenderPass.get_implementation, RenderPass.get_physical_pass_index,
    RenderPass.get_index, RenderPass.get_stages, RenderPass.get_graph.
  revert p Hrun. induction cs as [|c cs IH]; intros p Hrun; simpl in Hrun.
  - by injection Hrun as <-.
  - destruct (PassCalls.run_one c p) as [p1|] eqn:Hone; [|discriminate].
    simpl in Hrun. destruct (IH p1 Hrun) as (IHi & IHp & IHx & IHs & IHg).
    rewrite IHi, IHp, IHx, IHs, IHg, !default_last_omap_cons.
    clear IH IHi IHp IHx IHs IHg Hrun.
    destruct c as [impl|idx|n]; simpl in Hone.
    + by injection Hone as <-.
    + by apply make_color_input_scaled_Some in Hone as (? & ? & _ & _ & ->).
    + by injection Hone as <-.
Qed.

Lemma pass_history_members_witness :
  exists p',
    PassCalls.run
      [PassCalls.SetPhysicalPassIndex 3; PassCalls.MakeColorInputScaled 0;
       PassCalls.SetImplementation (Some 5%positive);
       PassCalls.SetPhysicalPassIndex 8]
      Fixtures.two_slot_pass = Some p' /\
    RenderPass.get_implementation p' = Some 5%positive /\
    RenderPass.get_physical_pass_index p' = 8%Z /\
    RenderPass.get_index p' = 0%Z.
Proof.
  eexists. split; [reflexivity|].
  destruct (pass_history_members
              [PassCalls.SetPhysicalPassIndex 3; PassCalls.MakeColorInputScaled 0;
               PassCalls.SetImplementation (Some 5%positive);
               PassCalls.SetPhysicalPassIndex 8]
              Fixtures.two_slot_pass _ eq_refl) as (Hi & Hp & Hx & _).
  split; [exact Hi|]. split; [exact Hp | exact Hx].
Defined.

(** *** The derived resource classes *)

(** X14. Through any history of calls on a buffer resource, inherited members
    and [set_buffer_info] do not interfere: the base subobject is what the
    inherited calls alone make of it, so the type stays [Buffer] and the
    logical index stays the constructor's, and [get_buffer_info] returns the
    argument of the last [set_buffer_info], or the default descriptor if
    there was none. *)
Theorem buffer_resource_history
    (idx : Z) (cs : list RenderBufferResource.call) :
  let r := RenderBufferResource.run cs (RenderBufferResource.make idx) in
  RenderBufferResource.base r =
    ResourceCalls.run (omap RenderBufferResource.inherited_arg cs)
                      (RenderResource.make RenderResource.Buffer idx) /\
  RenderResource.get_type (RenderBufferResource.base r) =
    RenderResource.Buffer /\
  RenderResource.get_index (RenderBufferResource.base r) = idx /\
  RenderBufferResource.get_buffer_info r =
    default BufferInfo.default (last (omap RenderBufferResource.info_arg cs)).
Proof.
  simpl.
  assert (RenderBufferResource.base
            (RenderBufferResource.run cs (RenderBufferResource.make idx)) =
          ResourceCalls.run (omap RenderBufferResource.inherited_arg cs)
            (RenderResource.make RenderResource.Buffer idx) /\
          RenderBufferResource.get_buffer_info
            (RenderBufferResource.run cs (RenderBufferResource.make idx)) =
          default BufferInfo.default
            (last (omap RenderBufferResource.info_arg cs))) as [Hbase Hinfo].
  { induction cs as [|c cs [IHb IHi]] using rev_ind; [done|].
    unfold RenderBufferResource.run, ResourceCalls.run in *.
    rewrite foldl_snoc, last_omap_snoc, omap_app.
    destruct c as [c'|i]; simpl.
    - rewrite IHb. split; [by rewrite foldl_snoc | exact IHi].
    - rewrite app_nil_r. by split. }
  rewrite Hbase.
  destruct (resource_calls_identity
              (omap RenderBufferResource.inherited_arg cs)
              (RenderResource.make RenderResource.Buffer idx)) as [Ht Hi].
  by rewrite Ht, Hi.
Qed.

(** X15. Through any history of calls on a texture resource the members do
    not interfere: the base subobject is what the inherited calls alone make
    of it, so the type stays [Texture] and the logical index stays the
    constructor's; the attachment descriptor, the transient flag and the
    storage flag are the arguments of the last call of their own setter, or
    the defaults (default descriptor, false, false) if there was none. *)
Theorem texture_resource_history
    {float : Type} (one : float) (idx : Z)
    (cs : list (RenderTextureResource.call float)) :
  let r := RenderTextureResource.run cs (RenderTextureResource.make one idx) in
  RenderTextureResource.base r =
    ResourceCalls.run (omap RenderTextureResource.inherited_arg cs)
                      (RenderResource.make RenderResource.Texture idx) /\
  RenderResource.get_type (RenderTextureResource.base r) =
    RenderResource.Texture /\
  RenderResource.get_index (RenderTextureResource.base r) = idx /\
  RenderTextureResource.get_attachment_info r =
    default (AttachmentInfo.default one)
            (last (omap RenderTextureResource.info_arg cs)) /\
  RenderTextureResource.get_transient_state r =
    default false (last (omap RenderTextureResource.transient_arg cs)) /\
  RenderTextureResource.get_storage_state r =
    default false (last (omap RenderTextureResource.storage_arg cs)).
Proof.
  simpl.
  assert (RenderTextureResource.base
            (RenderTextureResource.run cs (RenderTextureResource.make one idx)) =
          ResourceCalls.run (omap RenderTextureResource.inherited_arg cs)
            (RenderResource.make RenderResource.Texture idx) /\
          RenderTextureResource.get_attachment_info
            (RenderTextureResource.run cs (RenderTextureResource.make one idx)) =
          default (AttachmentInfo.default one)
            (last (omap RenderTextureResource.info_arg cs)) /\
          RenderTextureResource.get_transient_state
            (RenderTextureResource.run cs (RenderTextureResource.make one idx)) =
          default false (last (omap RenderTextureResource.transient_arg cs)) /\
          RenderTextureResource.get_storage_state
            (RenderTextureResource.run cs (RenderTextureResource.make one idx)) =
          default false (last (omap RenderTextureResource.storage_arg cs)))
    as (Hbase & Hinfo & Htr & Hst).
  { induction cs as [|c cs (IHb & IHi & IHt & IHs)] using rev_ind; [done|].
    unfold RenderTextureResource.run, ResourceCalls.run in *.
    rewrite foldl_snoc, !last_omap_snoc, omap_app.
    destruct c as [c'|i|b|b]; simpl; rewrite ?app_nil_r.
    - rewrite IHb. split; [by rewrite foldl_snoc | by repeat split].
    - by repeat split.
    - by repeat split.
    - by repeat split. }
  rewrite Hbase.
  destruct (resource_calls_identity
              (omap RenderTextureResource.inherited_arg cs)
              (RenderResource.make RenderResource.Texture idx)) as [Ht Hi].
  by rewrite Ht, Hi.
Qed.

(** *** The sentinel *)

(** X16. [RenderPass::Unused] and [RenderResource::Unused] are the same
    value, the greatest an [unsigned] can hold: every wrapped value lies
    between zero and the sentinel, and the sentinel plus one wraps to zero. *)
Theorem unused_is_greatest_unsigned :
  RenderPass.Unused = RenderResource.Unused /\
  (forall z : Z, (0 <= wrap_unsigned z <= RenderResource.Unused)%Z) /\
  wrap_unsigned (RenderResource.Unused + 1) = 0%Z.
Proof.
  split; [reflexivity|]. split; [|reflexivity].
  intros z. unfold wrap_unsigned.
  pose proof (Z.mod_pos_bound z (2 ^ unsigned_bits) eq_refl) as Hb.
  change RenderResource.Unused with (2 ^ unsigned_bits - 1)%Z. lia.
Qed.

